(** * Student class registration: enrollment and identity core

    A shallow embedding of the data-access core of the registration
    application (lib/auth, lib/api-utils, lib/db-errors, lib/db and the
    /api/enrollments route), and the properties its specification states
    about it.

    Modelling conventions.
    - A JavaScript string is a [string]: a sequence of code units, here the
      code units below 256.  On that range [toLowerCase], [trim] and the
      regular-expression classes used by the code are modelled exactly.
      Strings with other code units are outside the model; for them
      [String.prototype.toLowerCase] can change the length of a string
      (U+0130 becomes two code units), so nothing below is stated about the
      length of a lower-cased string or about validating one again.
    - JavaScript numbers that hold counters, limits and clock readings are
      integers ([Z]).
    - [Date.now()] and [new Date().toISOString()] read a clock oracle; an
      ISO-8601 timestamp is kept as the instant it renders.
    - [docClient.send] acts on two tables and may throw: a fault oracle says,
      for each call in turn, whether the store throws and which SDK exception.
      A scan returns every matching item (tables below the page size of the
      store); the enrollments table is a list in scan order with one item
      per id.  An item is kept as the code hands it over, also when its
      [className] is not a string; a marshaller that refuses such a value
      is a store that throws.
    - [getServerSession] is the session gate of next-auth; what it resolves
      for a request is part of the request.
    - Code that throws is a computation returning [Ok] or [Throw] together
      with the next world ([M]). *)

From Stdlib Require Import ZArith Ascii String List Bool Lia.
From stdpp Require Import base option gmap strings list pretty.

Local Open Scope Z_scope.

(* stdpp freezes string concatenation under [simpl]; the proofs below
   compute with it. *)
Local Arguments String.append !_ _ / : simpl nomatch.

(** ** JavaScript strings *)

Definition code (c : ascii) : N := N_of_ascii c.

Definition in_range (lo hi c : ascii) : bool :=
  ((code lo <=? code c) && (code c <=? code hi))%N.

(** [[a-z]], [[A-Z]] and [\d]. *)
Definition is_lower (c : ascii) : bool := in_range "a" "z" c.
Definition is_upper (c : ascii) : bool := in_range "A" "Z" c.
Definition is_digit (c : ascii) : bool := in_range "0" "9" c.

(** [\s], which is also the set of code units [trim] removes: TAB, LF, VT,
    FF, CR, SPACE and NO-BREAK SPACE. *)
Definition is_space (c : ascii) : bool :=
  in_range "009" "013" c || Ascii.eqb c " " || Ascii.eqb c "160".

(** Line terminators: the code units the regular expression [.] refuses. *)
Definition is_line_terminator (c : ascii) : bool :=
  Ascii.eqb c "010" || Ascii.eqb c "013".

Definition dot (c : ascii) : bool := negb (is_line_terminator c).

(** [String.prototype.toLowerCase] on the code units below 256, where it
    works one code unit at a time: A-Z, and the Latin-1 capitals
    U+00C0..U+00DE except the multiplication sign.  (Above that range the
    method may also lengthen a string; see the conventions.) *)
Definition lower_char (c : ascii) : ascii :=
  if is_upper c || (in_range "192" "222" c && negb (Ascii.eqb c "215"))
  then ascii_of_N (code c + 32) else c.

Fixpoint toLowerCase (s : string) : string :=
  match s with
  | EmptyString => EmptyString
  | String c t => String (lower_char c) (toLowerCase t)
  end.

Fixpoint trimStart (s : string) : string :=
  match s with
  | EmptyString => EmptyString
  | String c t => if is_space c then trimStart t else s
  end.

(** [trimEnd] keeps a code unit when it is not white space or when something
    is kept after it. *)
Fixpoint trimEnd (s : string) : string :=
  match s with
  | EmptyString => EmptyString
  | String c t =>
      match trimEnd t with
      | EmptyString => if is_space c then EmptyString else String c EmptyString
      | t' => String c t'
      end
  end.

Definition trim (s : string) : string := trimEnd (trimStart s).

(** [s.length] *)
Definition len (s : string) : Z := Z.of_nat (String.length s).

(** [!s] for a string: only the empty string is falsy. *)
Definition falsy (s : string) : bool :=
  match s with EmptyString => true | _ => false end.

(** [s.includes(t)] on a literal [t]. *)
Fixpoint starts_with (t s : string) : bool :=
  match t, s with
  | EmptyString, _ => true
  | String a t', String b s' => Ascii.eqb a b && starts_with t' s'
  | String _ _, EmptyString => false
  end.

(** [re.test(s)] for a regular expression without anchors: the pattern is
    tried at every start position, leftmost first. *)
Fixpoint search (at_start : string -> bool) (s : string) : bool :=
  at_start s ||
  match s with
  | EmptyString => false
  | String _ t => search at_start t
  end.

Definition includes (t s : string) : bool := search (starts_with t) s.

(** A one-character class tested anywhere in the string. *)
Definition test_class (cls : ascii -> bool) (s : string) : bool :=
  search (fun t => match t with String c _ => cls c | EmptyString => false end) s.

(** Canonicalisation of the [i] flag (no [u] flag): a code unit is compared
    through its upper-case form, and a code unit outside ASCII never
    canonicalises into ASCII.  The patterns of the code are ASCII, so it is
    enough to upper-case a-z and to leave every other code unit alone. *)
Definition canonicalize (c : ascii) : ascii :=
  if is_lower c then ascii_of_N (code c - 32) else c.

(** A literal alternative tried at the start of [s], ignoring case. *)
Fixpoint literal_ci (pat s : string) : bool :=
  match pat, s with
  | EmptyString, _ => true
  | String a pat', String b s' =>
      Ascii.eqb (canonicalize a) (canonicalize b) && literal_ci pat' s'
  | String _ _, EmptyString => false
  end.

(** ** lib/auth: password strength *)

(** The symbol class of the source: the thirty punctuation marks listed
    here (the double quote is code unit 34). *)
Definition symbol_chars : list ascii :=
  ["!"; "@"; "#"; "$"; "%"; "^"; "&"; "*"; "("; ")"; "_"; "+"; "-"; "=";
   "["; "]"; "{"; "}"; ";"; "'"; ":"; "034"; "\"; "|"; ","; "."; "<"; ">";
   "/"; "?"]%char.

Definition is_symbol (c : ascii) : bool :=
  existsb (Ascii.eqb c) symbol_chars.

(** [/(.)\1{2,}/] at the start of [s]: a captured code unit that [.] accepts,
    followed by at least two copies of it. *)
Definition repeat_at_start (s : string) : bool :=
  match s with
  | String c (String c1 (String c2 _)) =>
      dot c && Ascii.eqb c1 c && Ascii.eqb c2 c
  | _ => false
  end.

(** [/123|abc|qwe|password|admin/i] *)
Definition weak_patterns : list string :=
  ["123"; "abc"; "qwe"; "password"; "admin"].

Definition weak_at_start (s : string) : bool :=
  existsb (fun pat => literal_ci pat s) weak_patterns.

Record PasswordStrength := mkStrength {
  isValid : bool;
  score : Z;
  feedback : list string
}.

(** The two locals [feedback] and [score] are threaded through the checks in
    source order. *)
Definition validatePasswordStrength (password : string) : PasswordStrength :=
  if falsy password then
    {| isValid := false; score := 0; feedback := ["Password is required"] |}
  else
    let st : list string * Z := ([], 0) in
    (* Length check *)
    let st :=
      if len password <? 8
      then (st.1 ++ ["Password must be at least 8 characters long"], st.2)
      else if len password >=? 8 then (st.1, st.2 + 1) else st in
    let st := if len password >=? 12 then (st.1, st.2 + 1) else st in
    (* Character variety checks *)
    let st :=
      if test_class is_lower password then (st.1, st.2 + 1)
      else (st.1 ++ ["Include lowercase letters"], st.2) in
    let st :=
      if test_class is_upper password then (st.1, st.2 + 1)
      else (st.1 ++ ["Include uppercase letters"], st.2) in
    let st :=
      if test_class is_digit password then (st.1, st.2 + 1)
      else (st.1 ++ ["Include numbers"], st.2) in
    let st :=
      if test_class is_symbol password then (st.1, st.2 + 1)
      else (st.1 ++ ["Include special characters"], st.2) in
    (* Common password patterns *)
    let st :=
      if search repeat_at_start password
      then (st.1 ++ ["Avoid repeating characters"], st.2 - 1) else st in
    let st :=
      if search weak_at_start password
      then (st.1 ++ ["Avoid common patterns"], st.2 - 2) else st in
    let valid := (st.2 >=? 4) && (len password >=? 8) in
    let fb :=
      if (Nat.eqb (List.length st.1) 0) && valid
      then st.1 ++ ["Strong password!"] else st.1 in
    {| isValid := valid; score := Z.max 0 st.2; feedback := fb |}.

(** ** Errors *)

(** A thrown value.  [Error m] is [new Error(m)]; [DatabaseError] covers the
    class of lib/db-errors and its subclasses, which differ in [name], [code]
    and [statusCode]; [SdkError] is an exception of the AWS SDK, told apart by
    its [name] only. *)
Inductive JsError :=
| Error (message : string)
| DatabaseError (name message code : string) (statusCode : Z)
| SdkError (name : string).

Definition error_name (e : JsError) : string :=
  match e with
  | Error _ => "Error"
  | DatabaseError n _ _ _ => n
  | SdkError n => n
  end.

(** [error.message]; the text of an SDK exception is not interpreted by the
    code and is left empty. *)
Definition error_message (e : JsError) : string :=
  match e with
  | Error m => m
  | DatabaseError _ m _ _ => m
  | SdkError _ => ""
  end.

Definition ValidationError (message : string) : JsError :=
  DatabaseError "ValidationError" message "VALIDATION_ERROR" 400.
Definition NotFoundError (message : string) : JsError :=
  DatabaseError "NotFoundError" message "NOT_FOUND" 404.
Definition ConflictError (message : string) : JsError :=
  DatabaseError "ConflictError" message "CONFLICT" 409.

(** ** Records of the two tables *)

Inductive EnrollmentStatus := active | dropped.

Definition is_active (s : EnrollmentStatus) : bool :=
  match s with active => true | dropped => false end.

Record User := mkUser {
  u_email : string;
  passwordHash : string;
  u_name : string;
  studentId : string;
  createdAt : Z;
  u_updatedAt : Z
}.

(** The names of the members every object literal inherits from
    [Object.prototype]. *)
Definition object_prototype_members : list string :=
  ["constructor"; "__defineGetter__"; "__defineSetter__"; "hasOwnProperty";
   "__lookupGetter__"; "__lookupSetter__"; "isPrototypeOf";
   "propertyIsEnumerable"; "toString"; "valueOf"; "__proto__"; "toLocaleString"].

(** What the code holds in a [className].  The type says string, but the
    value is read from an object literal by key: it is a string, or, for a
    key that names a member of [Object.prototype], that member, an object or
    a function, which is truthy and strictly equal to no string. *)
Inductive ClassName :=
| Name (s : string)
| Member (key : string).

(** [className === s] *)
Definition className_is (s : string) (c : ClassName) : bool :=
  match c with
  | Name n => String.eqb n s
  | Member _ => false
  end.

(** An item of the enrollments table.  The interface has no [updatedAt];
    the item written by [unenrollFromClass] carries one. *)
Record Enrollment := mkEnrollment {
  e_id : string;
  e_email : string;
  className : ClassName;
  classId : string;
  enrolledAt : Z;
  status : EnrollmentStatus;
  updatedAt : option Z
}.

(** ** The world: tables, limiter state, clock and fault oracle *)

(** One request sent to the store. *)
Inductive DbOp :=
| PutUser (key : string) (conditional : bool)
| GetUser (key : string)
| PutEnrollment (key : string) (conditional : bool)
| ScanEnrollments (email_filter : option string).

(** An entry of [authAttempts] (lib/auth). *)
Record Attempt := mkAttempt { count : Z; lastAttempt : Z }.

(** An entry of [RateLimiter.attempts] (lib/api-utils). *)
Record Window := mkWindow { w_count : Z; resetTime : Z }.

Record RateLimiter := mkRateLimiter {
  maxAttempts : Z;
  windowMs : Z;
  attempts : gmap string Window
}.

Record World := mkWorld {
  users : gmap string User;          (* USERS_TABLE, keyed by email *)
  enrollments : list Enrollment;     (* ENROLLMENTS_TABLE, keyed by id, in scan order *)
  authAttempts : gmap string Attempt;
  apiRateLimiter : RateLimiter;
  clock : nat -> Z;                  (* the n-th reading of the clock *)
  ticks : nat;                       (* readings taken so far *)
  fault : nat -> option string;      (* exception name thrown by the n-th send *)
  oplog : list DbOp                  (* requests sent so far, oldest first *)
}.

Definition set_users (u : gmap string User) (w : World) : World :=
  mkWorld u (enrollments w) (authAttempts w) (apiRateLimiter w)
          (clock w) (ticks w) (fault w) (oplog w).
Definition set_enrollments (l : list Enrollment) (w : World) : World :=
  mkWorld (users w) l (authAttempts w) (apiRateLimiter w)
          (clock w) (ticks w) (fault w) (oplog w).
Definition set_authAttempts (a : gmap string Attempt) (w : World) : World :=
  mkWorld (users w) (enrollments w) a (apiRateLimiter w)
          (clock w) (ticks w) (fault w) (oplog w).
Definition set_apiRateLimiter (r : RateLimiter) (w : World) : World :=
  mkWorld (users w) (enrollments w) (authAttempts w) r
          (clock w) (ticks w) (fault w) (oplog w).
Definition tick (w : World) : World :=
  mkWorld (users w) (enrollments w) (authAttempts w) (apiRateLimiter w)
          (clock w) (S (ticks w)) (fault w) (oplog w).
Definition log (op : DbOp) (w : World) : World :=
  mkWorld (users w) (enrollments w) (authAttempts w) (apiRateLimiter w)
          (clock w) (ticks w) (fault w) (oplog w ++ [op]).

(** ** Computations that may throw *)

Inductive Outcome (A : Type) :=
| Ok (a : A)
| Throw (e : JsError).
Arguments Ok {A} a.
Arguments Throw {A} e.

Definition M (A : Type) : Type := World -> Outcome A * World.

Definition ret {A} (a : A) : M A := fun w => (Ok a, w).
Definition throw {A} (e : JsError) : M A := fun w => (Throw e, w).

Definition bind {A B} (m : M A) (k : A -> M B) : M B :=
  fun w =>
    match m w with
    | (Ok a, w') => k a w'
    | (Throw e, w') => (Throw e, w')
    end.

(** [try { m } catch (error) { h error }] *)
Definition try_catch {A} (m : M A) (h : JsError -> M A) : M A :=
  fun w =>
    match m w with
    | (Ok a, w') => (Ok a, w')
    | (Throw e, w') => h e w'
    end.

Definition lift {A} (o : Outcome A) : M A := fun w => (o, w).

Notation "'let*' x ':=' m 'in' k" := (bind m (fun x => k))
  (at level 10, x name, m at level 100, k at level 200).
Notation "m ';;' k" := (bind m (fun _ => k))
  (at level 100, k at level 200, right associativity).

(** [Date.now()], and [new Date().toISOString()] kept as the instant. *)
Definition Date_now : M Z := fun w => (Ok (clock w (ticks w)), tick w).
Definition Date_toISOString : M Z := Date_now.

(** ** The document client *)

(** [docClient.send(command)]: the request is recorded; the store either
    throws the exception the oracle names or runs the command. *)
Definition send {A} (op : DbOp) (run : M A) : M A :=
  fun w =>
    match fault w (List.length (oplog w)) with
    | Some name => (Throw (SdkError name), log op w)
    | None => run (log op w)
    end.

(** [PutCommand] on the users table.  [attribute_not_exists(email)] fails
    when an item with the key of [Item] is stored. *)
Definition PutCommand_users (item : User) (conditional : bool) : M unit :=
  send (PutUser (u_email item) conditional)
    (fun w =>
       match users w !! u_email item with
       | Some _ =>
           if conditional
           then (Throw (SdkError "ConditionalCheckFailedException"), w)
           else (Ok tt, set_users (<[u_email item := item]> (users w)) w)
       | None => (Ok tt, set_users (<[u_email item := item]> (users w)) w)
       end).

(** [GetCommand] on the users table: [result.Item]. *)
Definition GetCommand_users (key : string) : M (option User) :=
  send (GetUser key) (fun w => (Ok (users w !! key), w)).

Definition has_id (i : string) (e : Enrollment) : bool := String.eqb (e_id e) i.

(** Writing an item replaces the stored item with the same key, or adds it. *)
Fixpoint put_item (item : Enrollment) (tbl : list Enrollment) : list Enrollment :=
  match tbl with
  | [] => [item]
  | x :: t => if has_id (e_id item) x then item :: t else x :: put_item item t
  end.

(** [PutCommand] on the enrollments table, with or without
    [attribute_not_exists(id)]. *)
Definition PutCommand_enrollments (item : Enrollment) (conditional : bool) : M unit :=
  send (PutEnrollment (e_id item) conditional)
    (fun w =>
       if conditional && existsb (has_id (e_id item)) (enrollments w)
       then (Throw (SdkError "ConditionalCheckFailedException"), w)
       else (Ok tt, set_enrollments (put_item item (enrollments w)) w)).

(** [ScanCommand] on the enrollments table: [result.Items], all of them or
    those whose [email] equals the filter value. *)
Definition ScanCommand_enrollments (email_filter : option string) : M (list Enrollment) :=
  send (ScanEnrollments email_filter)
    (fun w =>
       (Ok match email_filter with
           | None => enrollments w
           | Some v => List.filter (fun e => String.eqb (e_email e) v) (enrollments w)
           end, w)).

(** ** lib/db-errors *)

Definition handleDynamoDBError (error : JsError) : JsError :=
  let errorName :=
    if falsy (error_name error) then "UnknownError" else error_name error in
  if String.eqb errorName "ConditionalCheckFailedException" then
    ConflictError "Resource already exists or condition not met"
  else if String.eqb errorName "ResourceNotFoundException" then
    NotFoundError "Requested resource not found"
  else if String.eqb errorName "ValidationException" then
    ValidationError "Invalid input provided"
  else if String.eqb errorName "ProvisionedThroughputExceededException" then
    DatabaseError "DatabaseError" "Service temporarily unavailable" "RATE_LIMIT" 429
  else if String.eqb errorName "ItemCollectionSizeLimitExceededException" then
    DatabaseError "DatabaseError" "Data limit exceeded" "DATA_LIMIT" 413
  else if String.eqb errorName "AccessDeniedException" then
    DatabaseError "DatabaseError" "Access denied" "ACCESS_DENIED" 403
  else
    DatabaseError "DatabaseError" "Internal server error" "INTERNAL_ERROR" 500.

Fixpoint all_chars (cls : ascii -> bool) (s : string) : bool :=
  match s with
  | EmptyString => true
  | String c t => cls c && all_chars cls t
  end.

(** [/^C+$/] for a character class [C]. *)
Definition one_or_more (cls : ascii -> bool) (s : string) : bool :=
  negb (falsy s) && all_chars cls s.

(** [[^\s@]] *)
Definition email_atom (c : ascii) : bool :=
  negb (is_space c) && negb (Ascii.eqb c "@").

(** The part before the first [c] and the part after it. *)
Fixpoint split_first (c : ascii) (s : string) : option (string * string) :=
  match s with
  | EmptyString => None
  | String a t =>
      if Ascii.eqb a c then Some (EmptyString, t)
      else match split_first c t with
           | Some (l, r) => Some (String a l, r)
           | None => None
           end
  end.

(** Some full stop of [s] has a code unit before it and one after it. *)
Fixpoint dot_inside (s : string) : bool :=
  match s with
  | String _ (String c t as r) =>
      (Ascii.eqb c "." && negb (falsy t)) || dot_inside r
  | _ => false
  end.

(** [/^[^\s@]+@[^\s@]+\.[^\s@]+$/]: no white space, exactly one [@] with a
    non-empty part before it, and after it atoms around an inner full stop. *)
Definition emailRegex (s : string) : bool :=
  match split_first "@" s with
  | Some (l, d) =>
      one_or_more email_atom l && all_chars email_atom d && dot_inside d
  | None => false
  end.

Definition validateEmail (email : string) : Outcome unit :=
  if falsy email then Throw (ValidationError "Email is required")
  else if negb (emailRegex email) then Throw (ValidationError "Invalid email format")
  else if len email >? 254 then Throw (ValidationError "Email too long")
  else Ok tt.

(** [/^[a-zA-Z0-9-]+$/] *)
Definition studentIdRegex : string -> bool :=
  one_or_more (fun c => is_lower c || is_upper c || is_digit c || Ascii.eqb c "-").

Definition validateStudentId (studentId : string) : Outcome unit :=
  if falsy studentId then Throw (ValidationError "Student ID is required")
  else if (len studentId <? 5) || (len studentId >? 20)
  then Throw (ValidationError "Student ID must be between 5 and 20 characters")
  else if negb (studentIdRegex studentId)
  then Throw (ValidationError "Student ID can only contain letters, numbers, and hyphens")
  else Ok tt.

(** [/^[a-zA-Z\s'-]+$/] *)
Definition nameRegex : string -> bool :=
  one_or_more (fun c => is_lower c || is_upper c || is_space c
                        || Ascii.eqb c "'" || Ascii.eqb c "-").

Definition validateName (name : string) : Outcome unit :=
  if falsy name then Throw (ValidationError "Name is required")
  else if (len name <? 2) || (len name >? 50)
  then Throw (ValidationError "Name must be between 2 and 50 characters")
  else if negb (nameRegex name)
  then Throw (ValidationError "Name can only contain letters, spaces, hyphens, and apostrophes")
  else Ok tt.

(** ** lib/db *)

Definition createUser (email passwordHash name studentId : string) : M User :=
  try_catch
    (lift (validateEmail email) ;;
     lift (validateName name) ;;
     lift (validateStudentId studentId) ;;
     (if falsy passwordHash
      then throw (Error "Password hash is required") else ret tt) ;;
     let* now := Date_toISOString in
     let user :=
       {| u_email := trim (toLowerCase email);
          passwordHash := passwordHash;
          u_name := trim name;
          studentId := trim studentId;
          createdAt := now;
          u_updatedAt := now |} in
     PutCommand_users user true ;;
     ret user)
    (fun error => throw (handleDynamoDBError error)).

Definition getUserByEmail (email : string) : M (option User) :=
  try_catch
    (lift (validateEmail email) ;;
     let* item := GetCommand_users (trim (toLowerCase email)) in
     match item with
     | None => ret None
     | Some u => ret (Some u)
     end)
    (fun _ => ret None).

Definition enrollInClass (email : string) (className : ClassName) (classId : string)
  : M unit :=
  try_catch
    (let* now := Date_toISOString in
     let* ms := Date_now in
     let enrollmentId := email +:+ "-" +:+ classId +:+ "-" +:+ pretty ms in
     let enrollment :=
       {| e_id := enrollmentId;
          e_email := trim (toLowerCase email);
          className := className;
          classId := classId;
          enrolledAt := now;
          status := active;
          updatedAt := None |} in
     PutCommand_enrollments enrollment true)
    (fun error =>
       if String.eqb (error_name error) "ConditionalCheckFailedException"
       then throw (Error "User is already enrolled in this class")
       else throw (Error "Failed to enroll in class")).

Definition getUserEnrollments (email : string) : M (list Enrollment) :=
  try_catch
    (let* allEnrollments := ScanCommand_enrollments (Some (trim (toLowerCase email))) in
     let activeEnrollments :=
       List.filter (fun enrollment => is_active (status enrollment)) allEnrollments in
     ret activeEnrollments)
    (fun _ => ret []).

(** The predicate of [enrollments.find] in [unenrollFromClass]. *)
Definition matches_key (classIdOrName : string) (e : Enrollment) : bool :=
  String.eqb (classId e) classIdOrName || className_is classIdOrName (className e).

(** [{ ...enrollment, status: 'dropped', updatedAt }] *)
Definition dropped_copy (enrollment : Enrollment) (now : Z) : Enrollment :=
  {| e_id := e_id enrollment;
     e_email := e_email enrollment;
     className := className enrollment;
     classId := classId enrollment;
     enrolledAt := enrolledAt enrollment;
     status := dropped;
     updatedAt := Some now |}.

Definition unenrollFromClass (email classIdOrName : string) : M unit :=
  try_catch
    (let* enrollments := getUserEnrollments email in
     match List.find (matches_key classIdOrName) enrollments with
     | None => throw (Error "Enrollment not found")
     | Some enrollment =>
         let* now := Date_toISOString in
         PutCommand_enrollments (dropped_copy enrollment now) false
     end)
    (fun _ => throw (Error "Failed to unenroll from class")).

Definition isUserEnrolledInClass (email classId' : string) : M bool :=
  try_catch
    (let* enrollments := getUserEnrollments email in
     ret (existsb (fun enrollment => String.eqb (classId enrollment) classId') enrollments))
    (fun _ => ret false).

Definition getAllEnrollments : M (list Enrollment) :=
  try_catch (ScanCommand_enrollments None) (fun _ => ret []).

(** ** lib/auth: the login rate limit *)

Definition checkRateLimit (identifier : string) (maxAttempts windowMs : Z) : M bool :=
  let* now := Date_now in
  fun w =>
    match authAttempts w !! identifier with
    | None =>
        (Ok true,
         set_authAttempts (<[identifier := mkAttempt 1 now]> (authAttempts w)) w)
    | Some attempts =>
        (* Reset if window has passed *)
        if now - lastAttempt attempts >? windowMs then
          (Ok true,
           set_authAttempts (<[identifier := mkAttempt 1 now]> (authAttempts w)) w)
        (* Check if limit exceeded *)
        else if count attempts >=? maxAttempts then (Ok false, w)
        (* Increment attempts *)
        else
          (Ok true,
           set_authAttempts
             (<[identifier := mkAttempt (count attempts + 1) now]> (authAttempts w)) w)
    end.

Definition clearRateLimit (identifier : string) : M unit :=
  fun w => (Ok tt, set_authAttempts (delete identifier (authAttempts w)) w).

(** ** lib/api-utils *)

(** [RateLimiter.isAllowed], as a method of the limiter found by [get] and
    stored back by [set]. *)
Definition isAllowed (get : World -> RateLimiter) (set : RateLimiter -> World -> World)
    (identifier : string) : M bool :=
  let* now := Date_now in
  fun w =>
    let this := get w in
    let fresh :=
      mkRateLimiter (maxAttempts this) (windowMs this)
        (<[identifier := mkWindow 1 (now + windowMs this)]> (attempts this)) in
    match attempts this !! identifier with
    | None => (Ok true, set fresh w)
    | Some attempt =>
        if now >? resetTime attempt then (Ok true, set fresh w)
        else if w_count attempt >=? maxAttempts this then (Ok false, w)
        else
          (Ok true,
           set (mkRateLimiter (maxAttempts this) (windowMs this)
                  (<[identifier := mkWindow (w_count attempt + 1) (resetTime attempt)]>
                     (attempts this))) w)
    end.

(** [RateLimiter.reset] *)
Definition reset (get : World -> RateLimiter) (set : RateLimiter -> World -> World)
    (identifier : string) : M unit :=
  fun w =>
    let this := get w in
    (Ok tt,
     set (mkRateLimiter (maxAttempts this) (windowMs this)
            (delete identifier (attempts this))) w).

(** *** Requests and responses *)

(** A member of a parsed body: a string, or a value of another type. *)
Inductive JsonValue :=
| JString (s : string)
| JOther.

(** What [request.json()] resolves to: a value that is not an object, an
    array, or an object with its members in source order. *)
Inductive Json :=
| JPrimitive
| JArray
| JObject (fields : list (string * JsonValue)).

(** [body[key]] on a parsed body; the last occurrence of a key wins, as in
    [JSON.parse]. *)
Definition get_field (key : string) (body : Json) : option JsonValue :=
  match body with
  | JObject fields =>
      match List.find (fun kv => String.eqb kv.1 key) (rev fields) with
      | Some kv => Some kv.2
      | None => None
      end
  | _ => None
  end.

Record SessionUser := mkSessionUser {
  su_email : string;
  su_name : string;
  su_studentId : string
}.

Record Session := mkSession { user : option SessionUser }.

Record NextRequest := mkRequest {
  method : string;
  content_type : option string;      (* headers.get('content-type') *)
  content_length : option Z;         (* the content-length header when it is a number *)
  x_forwarded_for : option string;
  x_real_ip : option string;
  cf_connecting_ip : option string;
  ip : option string;
  json : option Json;                (* request.json(), None when it rejects *)
  session : option Session           (* what getServerSession resolves for the request *)
}.

(** The [data] member of the bodies built by the route. *)
Inductive Data :=
| EnrollData (message classId : string) (className : ClassName) (alreadyEnrolled : bool)
| UnenrollData (message className : string).

(** The [error] member: a fixed text, or the prefix followed by the message
    zod renders for the issues it found. *)
Inductive ErrorText :=
| Text (s : string)
| InvalidEnrollmentData.

Inductive Body :=
| JsonEnrollments (items : list Enrollment)
| JsonError (error : string)
| ApiResponse (success : bool) (data : option Data)
              (message : option string) (error : option ErrorText).

Record Response := mkResponse { http_status : Z; body : Body }.

Module HTTP_STATUS.
Definition OK := 200.
Definition CREATED := 201.
Definition BAD_REQUEST := 400.
Definition UNAUTHORIZED := 401.
Definition FORBIDDEN := 403.
Definition NOT_FOUND := 404.
Definition CONFLICT := 409.
Definition TOO_MANY_REQUESTS := 429.
Definition INTERNAL_SERVER_ERROR := 500.
Definition NOT_IMPLEMENTED := 501.
End HTTP_STATUS.

Definition truthy (o : option string) : bool :=
  match o with Some s => negb (falsy s) | None => false end.

Definition createApiResponse (data : option Data) (message : option string)
    (status : Z) : Response :=
  mkResponse status
    (ApiResponse ((status >=? 200) && (status <? 300)) data
       (if truthy message then message else None) None).

Definition createErrorResponse (error : ErrorText) (status : Z) : Response :=
  mkResponse status (ApiResponse false None None (Some error)).

Definition validateMethod (request : NextRequest) (allowedMethods : list string) : bool :=
  existsb (String.eqb (method request)) allowedMethods.

(** [forwarded.split(',')[0]] *)
Fixpoint before_comma (s : string) : string :=
  match s with
  | EmptyString => EmptyString
  | String c t => if Ascii.eqb c "," then EmptyString else String c (before_comma t)
  end.

Definition getClientIP (request : NextRequest) : string :=
  if truthy (x_forwarded_for request)
  then trim (before_comma (default "" (x_forwarded_for request)))
  else if truthy (x_real_ip request) then default "" (x_real_ip request)
  else if truthy (cf_connecting_ip request) then default "" (cf_connecting_ip request)
  else if truthy (ip request) then default "" (ip request)
  else "unknown".

(** [!body || typeof body !== 'object'] lets arrays and objects through. *)
Definition is_object (j : Json) : bool :=
  match j with JArray | JObject _ => true | JPrimitive => false end.

(** The text the JSON parser puts in its own error is not modelled; the
    callers only compare the message with [Authentication required]. *)
Definition parseRequestBody (request : NextRequest) (maxSize : Z) : Outcome Json :=
  match content_length request with
  | Some n =>
      if n >? maxSize
      then Throw (Error "Failed to parse request body: Request body too large")
      else match json request with
           | None => Throw (Error "Failed to parse request body")
           | Some b =>
               if is_object b then Ok b
               else Throw (Error "Failed to parse request body: Invalid request body")
           end
  | None =>
      match json request with
      | None => Throw (Error "Failed to parse request body")
      | Some b =>
          if is_object b then Ok b
          else Throw (Error "Failed to parse request body: Invalid request body")
      end
  end.

Definition validateContentType (request : NextRequest) (expectedType : string) : bool :=
  match content_type request with
  | Some contentType => includes expectedType contentType
  | None => false
  end.

(** ** lib/validations: the enrollment schema *)

Inductive Action := enroll | unenroll.

(** [enrollmentSchema.safeParse(body)]: an object whose [classId] is a string
    of 1 to 50 code units and whose [action] is one of the two literals. *)
Definition enrollmentSchema (body : Json) : option (string * Action) :=
  match body with
  | JObject _ =>
      match get_field "classId" body, get_field "action" body with
      | Some (JString classId), Some (JString action) =>
          if (len classId >=? 1) && (len classId <=? 50) then
            if String.eqb action "enroll" then Some (classId, enroll)
            else if String.eqb action "unenroll" then Some (classId, unenroll)
            else None
          else None
      | _, _ => None
      end
  | _ => None
  end.

(** ** app/api/enrollments/route *)

Module EnrollmentsRoute.

Definition requireAuthentication (request : NextRequest) : M SessionUser :=
  match session request with
  | Some {| user := Some u |} =>
      if falsy (su_email u) then throw (Error "Authentication required") else ret u
  | _ => throw (Error "Authentication required")
  end.

Definition is_auth_error (error : JsError) : bool :=
  String.eqb (error_message error) "Authentication required".

Definition GET (request : NextRequest) : M Response :=
  try_catch
    (let* user := requireAuthentication request in
     let* allEnrollments := getAllEnrollments in
     let* enrollments := getUserEnrollments (su_email user) in
     ret (mkResponse 200 (JsonEnrollments enrollments)))
    (fun error =>
       if is_auth_error error
       then ret (mkResponse 401 (JsonError "Unauthorized"))
       else ret (mkResponse 500 (JsonError "Failed to get enrollments"))).

(** [classNames[classId]]: one of the three own properties of the literal,
    a member inherited from [Object.prototype], or undefined. *)
Definition classNames (classId : string) : option ClassName :=
  if String.eqb classId "1" then Some (Name "Web Development 101")
  else if String.eqb classId "2" then Some (Name "Database Basics")
  else if String.eqb classId "3" then Some (Name "Cybersecurity Fundamentals")
  else if existsb (String.eqb classId) object_prototype_members
  then Some (Member classId)
  else None.

Definition apiRateLimiter_isAllowed : string -> M bool :=
  isAllowed apiRateLimiter set_apiRateLimiter.

Definition POST (request : NextRequest) : M Response :=
  try_catch
    (if negb (validateMethod request ["POST"]) then
       ret (createErrorResponse (Text "Method not allowed") HTTP_STATUS.BAD_REQUEST)
     else if negb (validateContentType request "application/json") then
       ret (createErrorResponse (Text "Invalid content type") HTTP_STATUS.BAD_REQUEST)
     else
       let* user := requireAuthentication request in
       let clientIP := getClientIP request in
       let* allowed :=
         apiRateLimiter_isAllowed
           ("enrollment-" +:+ su_email user +:+ "-" +:+ clientIP) in
       if negb allowed then
         ret (createErrorResponse
                (Text "Too many enrollment attempts. Please try again later.")
                HTTP_STATUS.TOO_MANY_REQUESTS)
       else
         let* body := lift (parseRequestBody request 512) in
         match enrollmentSchema body with
         | None =>
             ret (createErrorResponse InvalidEnrollmentData HTTP_STATUS.BAD_REQUEST)
         | Some (classId, enroll) =>
             let* isEnrolled := isUserEnrolledInClass (su_email user) classId in
             if isEnrolled then
               ret (createErrorResponse
                      (Text "You are already enrolled in this class")
                      HTTP_STATUS.CONFLICT)
             else
               match classNames classId with
               | None =>
                   ret (createErrorResponse (Text "Class not found")
                          HTTP_STATUS.NOT_FOUND)
               | Some className =>
                   try_catch
                     (enrollInClass (su_email user) className classId ;;
                      let* verifyEnrollments := getUserEnrollments (su_email user) in
                      ret (createApiResponse
                             (Some (EnrollData "Successfully enrolled in class"
                                      classId className false))
                             (Some "Enrollment successful")
                             HTTP_STATUS.CREATED))
                     (fun enrollError =>
                        if String.eqb (error_message enrollError)
                             "User is already enrolled in this class"
                        then
                          ret (createApiResponse
                                 (Some (EnrollData "You are already enrolled in this class"
                                          classId className true))
                                 (Some "Already enrolled")
                                 HTTP_STATUS.OK)
                        else throw enrollError)
               end
         | Some (classId, unenroll) =>
             ret (createErrorResponse (Text "Unenrollment not yet implemented")
                    HTTP_STATUS.NOT_IMPLEMENTED)
         end)
    (fun error =>
       if is_auth_error error then
         ret (createErrorResponse (Text "Authentication required")
                HTTP_STATUS.UNAUTHORIZED)
       else
         ret (createErrorResponse (Text "Enrollment failed. Please try again.")
                HTTP_STATUS.INTERNAL_SERVER_ERROR)).

Definition DELETE (request : NextRequest) : M Response :=
  try_catch
    (if negb (validateMethod request ["DELETE"]) then
       ret (createErrorResponse (Text "Method not allowed") HTTP_STATUS.BAD_REQUEST)
     else if negb (validateContentType request "application/json") then
       ret (createErrorResponse (Text "Invalid content type") HTTP_STATUS.BAD_REQUEST)
     else
       let* user := requireAuthentication request in
       let* body := lift (parseRequestBody request 512) in
       match get_field "className" body with
       | Some (JString className) =>
           if falsy className then
             ret (createErrorResponse (Text "Class name is required")
                    HTTP_STATUS.BAD_REQUEST)
           else
             unenrollFromClass (su_email user) className ;;
             ret (createApiResponse
                    (Some (UnenrollData "Successfully unenrolled from class" className))
                    (Some "Unenrollment successful")
                    HTTP_STATUS.OK)
       | _ =>
           ret (createErrorResponse (Text "Class name is required")
                  HTTP_STATUS.BAD_REQUEST)
       end)
    (fun error =>
       if is_auth_error error then
         ret (createErrorResponse (Text "Authentication required")
                HTTP_STATUS.UNAUTHORIZED)
       else
         ret (createErrorResponse
                (Text "Failed to unenroll from class. Please try again.")
                HTTP_STATUS.INTERNAL_SERVER_ERROR)).

End EnrollmentsRoute.

(** ** The password rubric in the words of the specification *)

(** [s] has a code unit of the class [cls]. *)
Definition has (cls : ascii -> bool) (s : string) : Prop :=
  exists l c r, s = l +:+ String c r /\ cls c = true.

(** Some code unit other than a line terminator stands three times in a row. *)
Definition repeats3 (s : string) : Prop :=
  exists l c r,
    s = l +:+ String c (String c (String c r)) /\ is_line_terminator c = false.

(** The lower-cased password contains one of the weak patterns. *)
Definition weakly_patterned (s : string) : Prop :=
  exists pat, In pat weak_patterns /\
    exists l r, toLowerCase s = l +:+ pat +:+ r.

(** [k] is [n] when [P] holds and 0 when it does not. *)
Definition points (P : Prop) (n k : Z) : Prop := (P /\ k = n) \/ (~ P /\ k = 0).

Definition rubric (p : string) (raw : Z) : Prop :=
  exists k1 k2 k3 k4 k5 k6 k7 k8 : Z,
    points (8 <= len p) 1 k1 /\ points (12 <= len p) 1 k2 /\
    points (has is_lower p) 1 k3 /\ points (has is_upper p) 1 k4 /\
    points (has is_digit p) 1 k5 /\ points (has is_symbol p) 1 k6 /\
    points (repeats3 p) (-1) k7 /\ points (weakly_patterned p) (-2) k8 /\
    raw = k1 + k2 + k3 + k4 + k5 + k6 + k7 + k8.

(** The rubric with the repetition rule read literally: any code unit
    standing three times in a row costs a point. *)
Fixpoint claimed_repeat (s : string) : bool :=
  match s with
  | String c (String c1 (String c2 _) as t) =>
      (Ascii.eqb c c1 && Ascii.eqb c1 c2) || claimed_repeat t
  | _ => false
  end.

Definition claimed_weak (s : string) : bool :=
  existsb (fun pat => includes pat (toLowerCase s)) weak_patterns.

Definition claimed_score (p : string) : Z :=
  (if len p >=? 8 then 1 else 0) + (if len p >=? 12 then 1 else 0)
  + (if test_class is_lower p then 1 else 0)
  + (if test_class is_upper p then 1 else 0)
  + (if test_class is_digit p then 1 else 0)
  + (if test_class is_symbol p then 1 else 0)
  - (if claimed_repeat p then 1 else 0)
  - (if claimed_weak p then 2 else 0).

Definition claimed_valid (p : string) : bool :=
  (claimed_score p >=? 4) && (len p >=? 8).

(** Three equal code units in a row at the start of [s]. *)
Definition triple_at_start (s : string) : bool :=
  match s with
  | String c (String c1 (String c2 _)) => Ascii.eqb c c1 && Ascii.eqb c1 c2
  | _ => false
  end.

(** [s] holds one line terminator three times in a row. *)
Definition terminator_run (s : string) : bool :=
  search (fun t =>
            triple_at_start t &&
            match t with
            | String c _ => is_line_terminator c
            | EmptyString => false
            end) s.

(** ** Sample worlds and inputs *)

(** The limiter [new RateLimiter(100, 60 * 1000)] before any request. *)
Definition apiRateLimiter0 : RateLimiter := mkRateLimiter 100 (60 * 1000) ∅.

(** Empty tables and limiters, the given clock readings (0 once they run
    out) and a store that throws as [fault] says. *)
Definition initial_world (readings : list Z) (fault : nat -> option string) : World :=
  mkWorld ∅ [] ∅ apiRateLimiter0 (fun n => nth n readings 0) 0 fault [].

Definition no_fault : nat -> option string := fun _ => None.

(** A password with three line feeds in a row. *)
Definition newline_password : string :=
  "kq7!" +:+ String "010" (String "010" (String "010" "mz")).

(** Four attempts in a row with [maxAttempts = 3] and [windowMs = 60000],
    as in the limiter test. *)
Definition four_attempts (identifier : string) : M (list bool) :=
  let* attempt1 := checkRateLimit identifier 3 60000 in
  let* attempt2 := checkRateLimit identifier 3 60000 in
  let* attempt3 := checkRateLimit identifier 3 60000 in
  let* attempt4 := checkRateLimit identifier 3 60000 in
  ret [attempt1; attempt2; attempt3; attempt4].

(** A store that throws on its [n]-th request only. *)
Definition fault_at (n : nat) : nat -> option string :=
  fun k => if (k =? n)%nat then Some "ProvisionedThroughputExceededException" else None.

(** A store that answers its first [n] requests and throws on every later
    one. *)
Definition fault_after (n : nat) : nat -> option string :=
  fun k => if (k <? n)%nat then None else Some "ProvisionedThroughputExceededException".

(** A signed-in student and requests made with that session. *)
Definition student : SessionUser := mkSessionUser "Student@Example.com" "Student" "STU-12345".

Definition enroll_request (classId : string) : NextRequest :=
  mkRequest "POST" (Some "application/json") None None None None None
    (Some (JObject [("classId", JString classId); ("action", JString "enroll")]))
    (Some (mkSession (Some student))).

Definition unenroll_request (className : string) : NextRequest :=
  mkRequest "DELETE" (Some "application/json") None None None None None
    (Some (JObject [("className", JString className)]))
    (Some (mkSession (Some student))).

(** The enrollment the repository writes for [student] in class 1 at the
    clock readings 1000 and 1001. *)
Definition web_dev_enrollment : Enrollment :=
  mkEnrollment "Student@Example.com-1-1001" "student@example.com"
    (Name "Web Development 101") "1" 1000 active None.

(** A POST request without content type and without session. *)
Definition anonymous_post : NextRequest :=
  mkRequest "POST" None None None None None None
    (Some (JObject [("classId", JString "1"); ("action", JString "enroll")]))
    None.

(** ** Auxiliary definitions of the proofs *)

(** Every code unit, for proofs by enumeration. *)
Definition all_ascii : list ascii := List.map ascii_of_nat (seq 0 256).

(** The code units the weak patterns are written with. *)
Definition pattern_char (a : ascii) : bool := is_lower a || is_digit a.

(** The score before clamping, as the code accumulates it. *)
Definition raw_score (p : string) : Z :=
  (if 8 <=? len p then 1 else 0) + (if 12 <=? len p then 1 else 0)
  + (if test_class is_lower p then 1 else 0)
  + (if test_class is_upper p then 1 else 0)
  + (if test_class is_digit p then 1 else 0)
  + (if test_class is_symbol p then 1 else 0)
  + (if search repeat_at_start p then -1 else 0)
  + (if search weak_at_start p then -2 else 0).

(** [email.toLowerCase().trim()] *)
Definition normalized (email : string) : string := trim (toLowerCase email).

(** The active items stored under an email: what [getUserEnrollments]
    computes from the table when the scan succeeds. *)
Definition active_for (email : string) (tbl : list Enrollment) : list Enrollment :=
  List.filter (fun enrollment => is_active (status enrollment))
    (List.filter (fun e => String.eqb (e_email e) (normalized email)) tbl).

(** The id [enrollInClass] gives the item it writes at clock reading [ms]. *)
Definition enrollment_id (email classId : string) (ms : Z) : string :=
  email +:+ "-" +:+ classId +:+ "-" +:+ pretty ms.

(** The request carries no resolved identity: [session?.user?.email] is
    missing or empty. *)
Definition no_identity (request : NextRequest) : bool :=
  match session request with
  | Some {| user := Some u |} => falsy (su_email u)
  | _ => true
  end.

(** ** Further sample inputs *)

(** Arguments [createUser] accepts. *)
Definition ada_email : string := "Ada@Example.com".
Definition ada_hash : string := "$2b$10$hash".
Definition ada_name : string := "Ada Lovelace".
Definition ada_id : string := "stu-12345".

(** The error every failure of [createUser] outside the store's known
    exceptions is turned into. *)
Definition internal_error : JsError :=
  DatabaseError "DatabaseError" "Internal server error" "INTERNAL_ERROR" 500.

(** No code unit of [s] is white space. *)
Definition no_space (s : string) : bool := all_chars (fun c => negb (is_space c)) s.

(** The shape [local@x.y]: three non-empty runs of code units that are
    neither white space nor [@], joined by one [@] and a full stop. *)
Definition email_shape (s : string) : Prop :=
  exists l x y,
    s = l +:+ String "@" (x +:+ String "." y) /\
    l <> "" /\ x <> "" /\ y <> "" /\
    all_chars email_atom l = true /\ all_chars email_atom x = true /\
    all_chars email_atom y = true.

(** What a drop may not change in a record: everything but [status] and
    [updatedAt]. *)
Definition identity_of (e : Enrollment) : string * string * ClassName * string * Z :=
  (e_id e, e_email e, className e, classId e, enrolledAt e).

(** How the status of a stored record may differ after a drop by [email] with
    [key]: not at all, or from active to dropped for a record of that email
    that matches the key. *)
Definition kept_or_dropped (email key : string) (a b : Enrollment) : Prop :=
  identity_of b = identity_of a /\
  (b = a \/
   (status a = active /\ status b = dropped /\
    e_email a = normalized email /\ matches_key key a = true)).

(** The key under which POST counts the requests of a user. *)
Definition enrollment_limit_key (user : SessionUser) (request : NextRequest) : string :=
  "enrollment-" +:+ su_email user +:+ "-" +:+ getClientIP request.

(** The status codes POST can answer with. *)
Definition post_statuses : list Z := [200; 201; 400; 401; 404; 409; 429; 500; 501].

(** The status codes DELETE can answer with. *)
Definition delete_statuses : list Z := [200; 400; 401; 500].

(** ** lib/api-utils: the other methods of [RateLimiter] *)

(** [RateLimiter.getRemainingAttempts]; the clock is read only when the
    identifier has an entry. *)
Definition getRemainingAttempts (get : World -> RateLimiter) (identifier : string) : M Z :=
  fun w =>
    let this := get w in
    match attempts this !! identifier with
    | None => (Ok (maxAttempts this), w)
    | Some attempt =>
        (let* now := Date_now in
         if now >? resetTime attempt then ret (maxAttempts this)
         else ret (Z.max 0 (maxAttempts this - w_count attempt))) w
    end.

(** [RateLimiter.getResetTime]: [attempt?.resetTime || 0] *)
Definition getResetTime (get : World -> RateLimiter) (identifier : string) : M Z :=
  fun w =>
    match attempts (get w) !! identifier with
    | None => (Ok 0, w)
    | Some attempt => (Ok (resetTime attempt), w)
    end.

(** [n] calls of [apiRateLimiter.isAllowed] in a row, and their answers. *)
Fixpoint isAllowed_times (n : nat) (identifier : string) : M (list bool) :=
  match n with
  | O => ret []
  | S k =>
      let* b := EnrollmentsRoute.apiRateLimiter_isAllowed identifier in
      let* bs := isAllowed_times k identifier in
      ret (b :: bs)
  end.

(** [n] calls of [checkRateLimit] in a row, and their answers. *)
Fixpoint checkRateLimit_times (n : nat) (identifier : string) (maxAttempts windowMs : Z)
    : M (list bool) :=
  match n with
  | O => ret []
  | S k =>
      let* b := checkRateLimit identifier maxAttempts windowMs in
      let* bs := checkRateLimit_times k identifier maxAttempts windowMs in
      ret (b :: bs)
  end.


(** ** lib/validations: [sanitizeHtml] *)

(** [s.replace(/c/g, rep)] for a one-character pattern and a replacement
    text without [$]. *)
Fixpoint replace_char (c : ascii) (rep s : string) : string :=
  match s with
  | EmptyString => EmptyString
  | String x t =>
      (if Ascii.eqb x c then rep else String x EmptyString) +:+ replace_char c rep t
  end.

(** The five replacements run one after the other, each over the whole
    result of the one before (the double quote is code unit 34). *)
Definition sanitizeHtml (input : string) : string :=
  replace_char "/" "&#x2F;"
    (replace_char "'" "&#x27;"
       (replace_char "034" "&quot;"
          (replace_char ">" "&gt;"
             (replace_char "<" "&lt;" input)))).

(** The code units [sanitizeHtml] replaces. *)
Definition html_special (c : ascii) : bool :=
  existsb (Ascii.eqb c) ["<"; ">"; "034"; "'"; "/"]%char.

(** None of the replaced code units occurs in [s]. *)
Definition html_plain (s : string) : bool :=
  all_chars (fun c => negb (html_special c)) s.

(** ** lib/auth and the credentials provider: logging in *)

(** What [authorize] hands to the session: [{ id, email, name, studentId }]. *)
Record AuthorizedUser := mkAuthorizedUser
  { a_id : string; a_email : string; a_name : string; a_studentId : string }.

(** [SALT_ROUNDS] *)
Definition SALT_ROUNDS : Z := 10.

(** The error [hashPassword] throws for every failure. *)
Definition hash_failure : JsError := Error "Failed to hash password".

Section Login.

(** The libraries the code calls are left open: the parser of the login
    schema (a successful parse yields the email and the password) and the
    two bcrypt operations, which may read and change anything. *)
Context {Credentials : Type}.
Variable loginSchema_safeParse : Credentials -> option (string * string).
Variable bcrypt_hash : string -> Z -> M string.
Variable bcrypt_compare : string -> string -> M bool.

Definition hashPassword (password : string) : M string :=
  try_catch
    (if falsy password
     then throw (Error "Password is required and must be a string")
     else if len password <? 8
     then throw (Error "Password must be at least 8 characters long")
     else if len password >? 100
     then throw (Error "Password is too long")
     else
       let* hashedPassword := bcrypt_hash password SALT_ROUNDS in
       ret hashedPassword)
    (fun _ => throw hash_failure).

Definition verifyPassword (password hashedPassword : string) : M bool :=
  try_catch
    (if falsy password then ret false
     else if falsy hashedPassword then ret false
     else
       let* isValid := bcrypt_compare password hashedPassword in
       ret isValid)
    (fun _ => ret false).

Definition authorize (credentials : Credentials) : M (option AuthorizedUser) :=
  try_catch
    (match loginSchema_safeParse credentials with
     | None => ret None
     | Some (email, password) =>
         let* allowed := checkRateLimit email 5 (15 * 60 * 1000) in
         if negb allowed then ret None
         else
           let* user := getUserByEmail email in
           match user with
           | None => ret None
           | Some user =>
               let* isPasswordValid := verifyPassword password (passwordHash user) in
               if negb isPasswordValid then ret None
               else
                 clearRateLimit email ;;
                 ret (Some {| a_id := u_email user;
                              a_email := u_email user;
                              a_name := u_name user;
                              a_studentId := studentId user |})
           end
     end)
    (fun _ => ret None).

End Login.

(** A stand-in for the libraries, for running the code: credentials are the
    pair itself, and a hash is the password behind a fixed prefix. *)
Definition sample_parse (c : string * string) : option (string * string) := Some c.
Definition sample_hash (password : string) (_ : Z) : M string :=
  ret ("$2b$10$" +:+ password).
Definition sample_compare (password hashedPassword : string) : M bool :=
  ret (String.eqb ("$2b$10$" +:+ password) hashedPassword).

(** A stored user whose hash the stand-in accepts for [Correct-Horse-9]. *)
Definition ada_stored : User :=
  {| u_email := "ada@example.com";
     passwordHash := "$2b$10$Correct-Horse-9";
     u_name := "Ada Lovelace";
     studentId := "stu-12345";
     createdAt := 500;
     u_updatedAt := 500 |}.
(** * Properties *)

(** ** Strings and searches *)

Lemma search_spec (f : string -> bool) (s : string) :
  search f s = true <-> exists l r, s = l +:+ r /\ f r = true.
Proof.
  induction s as [|c s IH]; simpl.
  - rewrite orb_false_r. split.
    + intros H. exists "", "". auto.
    + intros (l & r & E & H). destruct l; simpl in E; [now subst | discriminate].
  - rewrite orb_true_iff, IH. split.
    + intros [H | (l & r & -> & H)].
      * exists "", (String c s). auto.
      * exists (String c l), r. auto.
    + intros (l & r & E & H). destruct l as [|x l]; simpl in E.
      * left. now subst.
      * right. injection E as -> ->. eauto.
Qed.

Lemma test_class_spec (cls : ascii -> bool) (s : string) :
  test_class cls s = true <-> has cls s.
Proof.
  unfold test_class, has. rewrite search_spec. split.
  - intros (l & r & -> & H). destruct r as [|c r]; [discriminate |]. eauto.
  - intros (l & c & r & -> & H). exists l, (String c r). auto.
Qed.

Lemma repeat_spec (s : string) :
  search repeat_at_start s = true <-> repeats3 s.
Proof.
  unfold repeats3. rewrite search_spec. split.
  - intros (l & r & -> & H).
    destruct r as [|c [|c1 [|c2 r]]]; simpl in H; try discriminate.
    apply andb_true_iff in H as [H H2]. apply andb_true_iff in H as [H0 H1].
    apply Ascii.eqb_eq in H1, H2. subst c1 c2.
    exists l, c, r. split; [reflexivity |].
    unfold dot in H0. now apply negb_true_iff in H0.
  - intros (l & c & r & -> & H).
    exists l, (String c (String c (String c r))). split; [reflexivity |].
    simpl. unfold dot. now rewrite H, !Ascii.eqb_refl.
Qed.


Lemma all_ascii_complete (c : ascii) : In c all_ascii.
Proof.
  unfold all_ascii. rewrite <- (ascii_nat_embedding c).
  apply in_map, in_seq. pose proof (nat_ascii_bounded c). lia.
Qed.

Lemma forall_ascii (P : ascii -> bool) :
  forallb P all_ascii = true -> forall c, P c = true.
Proof.
  intros H c. rewrite forallb_forall in H. apply H, all_ascii_complete.
Qed.


Lemma canonicalize_lower (a b : ascii) :
  pattern_char a = true ->
  Ascii.eqb (canonicalize a) (canonicalize b) = Ascii.eqb a (lower_char b).
Proof.
  intros Ha.
  assert (H : forallb (fun a => forallb (fun b =>
              implb (pattern_char a)
                (Bool.eqb (Ascii.eqb (canonicalize a) (canonicalize b))
                          (Ascii.eqb a (lower_char b)))) all_ascii) all_ascii = true)
    by (vm_compute; reflexivity).
  pose proof (forall_ascii _ (forall_ascii _ H a) b) as Hab. simpl in Hab.
  rewrite Ha in Hab. simpl in Hab. now apply eqb_prop in Hab.
Qed.

Lemma toLowerCase_app (a b : string) :
  toLowerCase (a +:+ b) = toLowerCase a +:+ toLowerCase b.
Proof. induction a as [|c a IH]; simpl; [reflexivity | now rewrite IH]. Qed.

Lemma toLowerCase_split (s a b : string) :
  toLowerCase s = a +:+ b ->
  exists s1 s2, s = s1 +:+ s2 /\ toLowerCase s1 = a /\ toLowerCase s2 = b.
Proof.
  revert s. induction a as [|x a IH]; intros s H; simpl in H.
  - exists "", s. auto.
  - destruct s as [|c s]; simpl in H; [discriminate |].
    injection H as Hc Hs. destruct (IH _ Hs) as (s1 & s2 & -> & H1 & H2).
    exists (String c s1), s2. simpl. now rewrite Hc, H1.
Qed.

Lemma literal_ci_spec (pat s : string) :
  all_chars pattern_char pat = true ->
  literal_ci pat s = true <->
  exists m r, s = m +:+ r /\ toLowerCase m = pat.
Proof.
  revert s. induction pat as [|a pat IH]; intros s Hp; simpl.
  - split; [intros _; exists "", s; auto | reflexivity].
  - simpl in Hp. apply andb_true_iff in Hp as [Ha Hp].
    destruct s as [|b s].
    + split; [discriminate |].
      intros (m & r & E & H). destruct m; simpl in *; discriminate.
    + rewrite andb_true_iff, (canonicalize_lower _ _ Ha), Ascii.eqb_eq, (IH s Hp).
      split.
      * intros [-> (m & r & -> & <-)]. exists (String b m), r. auto.
      * intros (m & r & E & H). destruct m as [|c m]; simpl in *; [discriminate |].
        injection E as -> ->. injection H as <- <-. eauto.
Qed.

Lemma weak_patterns_chars :
  forallb (all_chars pattern_char) weak_patterns = true.
Proof. reflexivity. Qed.

Lemma weak_spec (s : string) :
  search weak_at_start s = true <-> weakly_patterned s.
Proof.
  unfold weakly_patterned, weak_at_start. rewrite search_spec. split.
  - intros (l & r & -> & H). apply existsb_exists in H as (pat & Hin & H).
    pose proof weak_patterns_chars as Hc. rewrite forallb_forall in Hc.
    apply (literal_ci_spec _ _ (Hc _ Hin)) in H as (m & r' & -> & <-).
    exists (toLowerCase m). split; [assumption |].
    exists (toLowerCase l), (toLowerCase r'). now rewrite !toLowerCase_app.
  - intros (pat & Hin & l' & r' & H).
    apply toLowerCase_split in H as (l & x & -> & _ & H).
    apply toLowerCase_split in H as (m & r & -> & H & _).
    exists l, (m +:+ r). split; [reflexivity |].
    apply existsb_exists. exists pat. split; [assumption |].
    pose proof weak_patterns_chars as Hc. rewrite forallb_forall in Hc.
    apply (literal_ci_spec _ _ (Hc _ Hin)). eauto.
Qed.

Lemma points_of_bool (b : bool) (P : Prop) (n : Z) :
  (b = true <-> P) -> points P n (if b then n else 0).
Proof.
  intros H. destruct b; [left | right]; split; try reflexivity.
  - now apply H.
  - intros HP. apply H in HP. discriminate.
Qed.


Lemma raw_score_rubric (p : string) : rubric p (raw_score p).
Proof.
  unfold rubric, raw_score. do 8 eexists.
  repeat split; [| | | | | | | ]; try (apply points_of_bool).
  - apply Z.leb_le.
  - apply Z.leb_le.
  - apply test_class_spec.
  - apply test_class_spec.
  - apply test_class_spec.
  - apply test_class_spec.
  - apply repeat_spec.
  - apply weak_spec.
Qed.

Lemma validatePasswordStrength_raw (p : string) :
  isValid (validatePasswordStrength p) = (4 <=? raw_score p) && (8 <=? len p) /\
  score (validatePasswordStrength p) = Z.max 0 (raw_score p).
Proof.
  destruct p as [|c p]; [split; reflexivity |].
  cbv beta delta [validatePasswordStrength raw_score].
  change (falsy (String c p)) with false. cbv iota.
  generalize (String c p). intros q.
  rewrite !Z.geb_leb.
  generalize (test_class is_lower q), (test_class is_upper q),
    (test_class is_digit q), (test_class is_symbol q),
    (search repeat_at_start q), (search weak_at_start q).
  destruct (Z.ltb_spec (len q) 8), (Z.leb_spec 8 (len q)),
    (Z.leb_spec 12 (len q)); try lia; clear;
    intros [] [] [] [] [] []; split; reflexivity.
Qed.

Lemma points_functional (P : Prop) (n x y : Z) :
  points P n x -> points P n y -> x = y.
Proof.
  unfold points. intros [[HP ->] | [HP ->]] [[HQ ->] | [HQ ->]];
    try reflexivity; contradiction.
Qed.

Lemma rubric_functional (p : string) (r1 r2 : Z) :
  rubric p r1 -> rubric p r2 -> r1 = r2.
Proof.
  intros (a1 & a2 & a3 & a4 & a5 & a6 & a7 & a8 & A1 & A2 & A3 & A4 & A5 & A6 & A7 & A8 & Ha)
         (b1 & b2 & b3 & b4 & b5 & b6 & b7 & b8 & B1 & B2 & B3 & B4 & B5 & B6 & B7 & B8 & Hb).
  rewrite Ha, Hb.
  rewrite (points_functional _ _ _ _ A1 B1), (points_functional _ _ _ _ A2 B2),
    (points_functional _ _ _ _ A3 B3), (points_functional _ _ _ _ A4 B4),
    (points_functional _ _ _ _ A5 B5), (points_functional _ _ _ _ A6 B6),
    (points_functional _ _ _ _ A7 B7), (points_functional _ _ _ _ A8 B8).
  reflexivity.
Qed.

(** ** C8: password strength *)

(** What the code computes.  [validatePasswordStrength] is a function of the
    password alone.  Its score before clamping is +1 for length >= 8, +1 for
    length >= 12, +1 each for a code unit of the classes lowercase,
    uppercase, digit and symbol of the code, -1 when a code unit other than
    a line terminator stands three or more times in a row, -2 when the
    lower-cased password contains a weak pattern.  [isValid] holds exactly
    when that score is at least 4 and the length at least 8, and the
    reported score is clamped at 0. *)
Theorem validatePasswordStrength_rubric :
  (forall p : string,
      exists raw : Z,
        rubric p raw /\
        (isValid (validatePasswordStrength p) = true <-> 4 <= raw /\ 8 <= len p) /\
        score (validatePasswordStrength p) = Z.max 0 raw) /\
  isValid (validatePasswordStrength "weak") = false /\
  isValid (validatePasswordStrength "StrongPassword123!") = true /\
  isValid (validatePasswordStrength "NOLOWERCASE123!") = false /\
  isValid (validatePasswordStrength "nonumbers123") = false.
Proof.
  split; [| repeat split; vm_compute; reflexivity].
  intros p. exists (raw_score p).
  destruct (validatePasswordStrength_raw p) as [Hv Hs].
  split; [apply raw_score_rubric |]. split; [| exact Hs].
  rewrite Hv, andb_true_iff, !Z.leb_le. reflexivity.
Qed.

Lemma search_ext (f g : string -> bool) (s : string) :
  (forall t, f t = g t) -> search f s = search g s.
Proof.
  intros H. induction s as [|c s IH]; cbn; [now rewrite H |].
  now rewrite H, IH.
Qed.

Lemma search_orb (f g : string -> bool) (s : string) :
  search (fun t => f t || g t) s = search f s || search g s.
Proof.
  induction s as [|c s IH]; cbn.
  - now destruct (f ""), (g "").
  - rewrite IH.
    now destruct (f (String c s)), (g (String c s)), (search f s), (search g s).
Qed.

Lemma claimed_repeat_search (s : string) :
  claimed_repeat s = search triple_at_start s.
Proof.
  induction s as [|c s IH]; [reflexivity |].
  destruct s as [|c1 [|c2 r]]; [reflexivity | reflexivity |].
  change (claimed_repeat (String c (String c1 (String c2 r))))
    with ((Ascii.eqb c c1 && Ascii.eqb c1 c2) || claimed_repeat (String c1 (String c2 r))).
  rewrite IH. reflexivity.
Qed.

(** Read literally, the repetition rule sees what the code sees and, beyond
    that, the runs of a line terminator. *)
Lemma claimed_repeat_eq (s : string) :
  claimed_repeat s = search repeat_at_start s || terminator_run s.
Proof.
  rewrite claimed_repeat_search. unfold terminator_run.
  rewrite <- search_orb. apply search_ext. intros t.
  destruct t as [|c [|c1 [|c2 r]]]; try reflexivity.
  cbn. unfold dot.
  destruct (Ascii.eqb_spec c c1) as [<- |]; cbn.
  - rewrite Ascii.eqb_refl.
    destruct (Ascii.eqb_spec c c2) as [<- |]; cbn.
    + rewrite Ascii.eqb_refl. now destruct (is_line_terminator c).
    + destruct (Ascii.eqb_spec c2 c); [congruence |].
      now rewrite andb_false_r.
  - destruct (Ascii.eqb_spec c1 c); [congruence |].
    now rewrite andb_false_r.
Qed.

Lemma starts_with_spec (t s : string) :
  starts_with t s = true <-> exists r, s = t +:+ r.
Proof.
  revert s. induction t as [|a t IH]; intros s; cbn.
  - split; eauto.
  - destruct s as [|b s].
    + split; [discriminate | intros (r & E); discriminate E].
    + rewrite andb_true_iff, IH. split.
      * intros (E & r & ->). apply Ascii.eqb_eq in E. subst. eauto.
      * intros (r & E). injection E as -> ->.
        split; [apply Ascii.eqb_refl | eauto].
Qed.

Lemma claimed_weak_eq (s : string) :
  claimed_weak s = search weak_at_start s.
Proof.
  apply eq_true_iff_eq. rewrite weak_spec.
  unfold claimed_weak, weakly_patterned, includes. rewrite existsb_exists.
  split.
  - intros (pat & Hin & H). exists pat. split; [exact Hin |].
    apply search_spec in H as (l & r & E & H).
    apply starts_with_spec in H as (r' & ->). eauto.
  - intros (pat & Hin & l & r & E). exists pat. split; [exact Hin |].
    apply search_spec. exists l, (pat +:+ r). split; [exact E |].
    apply starts_with_spec. eauto.
Qed.

Lemma claimed_score_raw (p : string) :
  terminator_run p = false -> claimed_score p = raw_score p.
Proof.
  intros H. unfold claimed_score, raw_score.
  rewrite claimed_repeat_eq, H, orb_false_r, claimed_weak_eq, !Z.geb_leb.
  destruct (search repeat_at_start p), (search weak_at_start p); lia.
Qed.

(** C8.  The code keeps the rubric of the claim for every password but those
    that hold one line terminator three times in a row.  Where there is no
    such run, the reported score is the score of the claim clamped at 0 and
    [isValid] is the validity of the claim, and the four sample passwords
    are judged as stated.  The repetition test of the code, a regular
    expression whose dot refuses line terminators, misses such a run: the
    password made of kq7!, three line feeds and mz repeats a character three
    times, scores 3 and is invalid by the claim, and the code gives it
    score 4 and calls it valid. *)
Theorem validatePasswordStrength_misses_terminator_runs :
  (forall p : string,
      terminator_run p = false ->
      score (validatePasswordStrength p) = Z.max 0 (claimed_score p) /\
      isValid (validatePasswordStrength p) = claimed_valid p) /\
  (isValid (validatePasswordStrength "weak") = false /\
   isValid (validatePasswordStrength "StrongPassword123!") = true /\
   isValid (validatePasswordStrength "NOLOWERCASE123!") = false /\
   isValid (validatePasswordStrength "nonumbers123") = false) /\
  (claimed_repeat newline_password = true /\
   search repeat_at_start newline_password = false /\
   claimed_score newline_password = 3 /\
   claimed_valid newline_password = false /\
   score (validatePasswordStrength newline_password) = 4 /\
   isValid (validatePasswordStrength newline_password) = true).
Proof.
  split; [| split; repeat split; vm_compute; reflexivity].
  intros p H. destruct (validatePasswordStrength_raw p) as [Hv Hs].
  unfold claimed_valid. rewrite (claimed_score_raw p H), Hv, Hs, !Z.geb_leb.
  split; reflexivity.
Qed.

Lemma validatePasswordStrength_misses_terminator_runs_witness :
  score (validatePasswordStrength "StrongPassword123!") =
    Z.max 0 (claimed_score "StrongPassword123!") /\
  isValid (validatePasswordStrength "StrongPassword123!") =
    claimed_valid "StrongPassword123!".
Proof.
  apply (proj1 validatePasswordStrength_misses_terminator_runs "StrongPassword123!").
  reflexivity.
Defined.

(** The fifth sample of the authentication tests, which expect it to be
    invalid: it has no digit, scores 4 and is valid. *)
Example strength_NoNumbers :
  validatePasswordStrength "NoNumbers!" =
  {| isValid := true; score := 4; feedback := ["Include numbers"] |}.
Proof. vm_compute. reflexivity. Qed.

(** ** C2, C3: the two rate limiters *)

Lemma checkRateLimit_eq (identifier : string) (maxA win : Z) (w : World) :
  checkRateLimit identifier maxA win w =
  let now := clock w (ticks w) in
  let fresh := <[identifier := mkAttempt 1 now]> (authAttempts w) in
  match authAttempts w !! identifier with
  | None => (Ok true, set_authAttempts fresh (tick w))
  | Some a =>
      if win <? now - lastAttempt a then (Ok true, set_authAttempts fresh (tick w))
      else if maxA <=? count a then (Ok false, tick w)
      else (Ok true,
            set_authAttempts
              (<[identifier := mkAttempt (count a + 1) now]> (authAttempts w)) (tick w))
  end.
Proof.
  unfold checkRateLimit, bind, Date_now. cbn.
  destruct (authAttempts w !! identifier) as [a|]; [| reflexivity].
  now rewrite Z.gtb_ltb, Z.geb_leb.
Qed.

Lemma isAllowed_eq (identifier : string) (w : World) :
  EnrollmentsRoute.apiRateLimiter_isAllowed identifier w =
  let now := clock w (ticks w) in
  let this := apiRateLimiter w in
  let fresh :=
    mkRateLimiter (maxAttempts this) (windowMs this)
      (<[identifier := mkWindow 1 (now + windowMs this)]> (attempts this)) in
  match attempts this !! identifier with
  | None => (Ok true, set_apiRateLimiter fresh (tick w))
  | Some a =>
      if resetTime a <? now then (Ok true, set_apiRateLimiter fresh (tick w))
      else if maxAttempts this <=? w_count a then (Ok false, tick w)
      else (Ok true,
            set_apiRateLimiter
              (mkRateLimiter (maxAttempts this) (windowMs this)
                 (<[identifier := mkWindow (w_count a + 1) (resetTime a)]>
                    (attempts this))) (tick w))
  end.
Proof.
  unfold EnrollmentsRoute.apiRateLimiter_isAllowed, isAllowed, bind, Date_now. cbn.
  destruct (attempts (apiRateLimiter w) !! identifier) as [a|]; [| reflexivity].
  now rewrite Z.gtb_ltb, Z.geb_leb.
Qed.

(** C2, as amended.  [RateLimiter.isAllowed] is a fixed window anchored at
    the first request: the first call stores count 1 with a window ending at
    now + windowMs and answers true; a call inside the window counts up and
    answers true while the count is below the maximum and answers false,
    changing nothing, once it has reached it; a call after the window has
    ended stores count 1 and a new window.  [checkRateLimit] anchors its
    window at the latest call it let through instead: it answers in the same
    way, but every such call moves [lastAttempt] to now and the count starts
    over only when more than windowMs has passed since [lastAttempt].  In
    both the entries of other identifiers are left alone. *)
Theorem rate_limiter_windows (w : World) (identifier : string) (maxA win : Z) :
  let now := clock w (ticks w) in
  (let this := apiRateLimiter w in
   let r := EnrollmentsRoute.apiRateLimiter_isAllowed identifier w in
   let after := attempts (apiRateLimiter r.2) in
   (forall j, j <> identifier -> after !! j = attempts this !! j) /\
   match attempts this !! identifier with
   | None =>
       r.1 = Ok true /\
       after !! identifier = Some (mkWindow 1 (now + windowMs this))
   | Some a =>
       (now <= resetTime a -> w_count a < maxAttempts this ->
        r.1 = Ok true /\
        after !! identifier = Some (mkWindow (w_count a + 1) (resetTime a))) /\
       (now <= resetTime a -> maxAttempts this <= w_count a ->
        r.1 = Ok false /\ after = attempts this) /\
       (resetTime a < now ->
        r.1 = Ok true /\
        after !! identifier = Some (mkWindow 1 (now + windowMs this)))
   end) /\
  (let r := checkRateLimit identifier maxA win w in
   let after := authAttempts r.2 in
   (forall j, j <> identifier -> after !! j = authAttempts w !! j) /\
   match authAttempts w !! identifier with
   | None =>
       r.1 = Ok true /\ after !! identifier = Some (mkAttempt 1 now)
   | Some a =>
       (now - lastAttempt a <= win -> count a < maxA ->
        r.1 = Ok true /\
        after !! identifier = Some (mkAttempt (count a + 1) now)) /\
       (now - lastAttempt a <= win -> maxA <= count a ->
        r.1 = Ok false /\ after = authAttempts w) /\
       (win < now - lastAttempt a ->
        r.1 = Ok true /\ after !! identifier = Some (mkAttempt 1 now))
   end).
Proof.
  cbv zeta. split.
  - rewrite isAllowed_eq. cbv zeta.
    destruct (attempts (apiRateLimiter w) !! identifier) as [a|] eqn:E.
    + destruct (Z.ltb_spec (resetTime a) (clock w (ticks w))) as [H|H];
        [| destruct (Z.leb_spec (maxAttempts (apiRateLimiter w)) (w_count a)) as [H'|H']];
        cbn; (split; [intros j Hj; try reflexivity; now rewrite lookup_insert_ne |]);
        repeat split; intros; try lia; try reflexivity; apply lookup_insert_eq.
    + cbn. split; [intros j Hj; now rewrite lookup_insert_ne |].
      split; [reflexivity | apply lookup_insert_eq].
  - rewrite checkRateLimit_eq. cbv zeta.
    destruct (authAttempts w !! identifier) as [a|] eqn:E.
    + destruct (Z.ltb_spec win (clock w (ticks w) - lastAttempt a)) as [H|H];
        [| destruct (Z.leb_spec maxA (count a)) as [H'|H']];
        cbn; (split; [intros j Hj; try reflexivity; now rewrite lookup_insert_ne |]);
        repeat split; intros; try lia; try reflexivity; apply lookup_insert_eq.
    + cbn. split; [intros j Hj; now rewrite lookup_insert_ne |].
      split; [reflexivity | apply lookup_insert_eq].
Qed.

Lemma rate_limiter_windows_witness :
  let w1 := (checkRateLimit "u" 2 10 (initial_world [0; 8; 15] no_fault)).2 in
  (checkRateLimit "u" 2 10 w1).1 = Ok true /\
  authAttempts (checkRateLimit "u" 2 10 w1).2 !! "u" = Some (mkAttempt 2 8).
Proof.
  intros w1.
  destruct (rate_limiter_windows w1 "u" 2 10) as [_ [_ H]].
  assert (E : authAttempts w1 !! "u" = Some (mkAttempt 1 0))
    by (vm_compute; reflexivity).
  rewrite E in H. destruct H as [H _].
  apply H; vm_compute; [discriminate | reflexivity].
Defined.

(** C2 as stated fails for [checkRateLimit].  With [maxAttempts = 2] and
    [windowMs = 10], calls at times 0, 8 and 15: the third call comes after
    the window of the first request has ended (0 + 10 < 15), yet it is refused
    and the count stays at 2, because the second call moved the anchor to 8.
    [RateLimiter.isAllowed] with the same limits and times lets the third
    call through. *)
Lemma checkRateLimit_not_fixed_window :
  let w0 :=
    set_apiRateLimiter (mkRateLimiter 2 10 ∅) (initial_world [0; 8; 15] no_fault) in
  let r1 := checkRateLimit "u" 2 10 w0 in
  let r2 := checkRateLimit "u" 2 10 r1.2 in
  let r3 := checkRateLimit "u" 2 10 r2.2 in
  let a1 := EnrollmentsRoute.apiRateLimiter_isAllowed "u" w0 in
  let a2 := EnrollmentsRoute.apiRateLimiter_isAllowed "u" a1.2 in
  let a3 := EnrollmentsRoute.apiRateLimiter_isAllowed "u" a2.2 in
  r1.1 = Ok true /\ r2.1 = Ok true /\
  clock w0 0 + 10 < clock w0 2 /\
  r3.1 = Ok false /\
  authAttempts r3.2 !! "u" = Some (mkAttempt 2 8) /\
  a3.1 = Ok true.
Proof. repeat split; vm_compute; reflexivity. Qed.

Lemma checkRateLimit_first (identifier : string) (maxA win : Z) (w : World) :
  authAttempts w !! identifier = None ->
  checkRateLimit identifier maxA win w =
  (Ok true,
   set_authAttempts
     (<[identifier := mkAttempt 1 (clock w (ticks w))]> (authAttempts w)) (tick w)).
Proof. intros H. rewrite checkRateLimit_eq. cbv zeta. now rewrite H. Qed.

Lemma checkRateLimit_allow (identifier : string) (maxA win : Z) (w : World) (a : Attempt) :
  authAttempts w !! identifier = Some a ->
  clock w (ticks w) - lastAttempt a <= win -> count a < maxA ->
  checkRateLimit identifier maxA win w =
  (Ok true,
   set_authAttempts
     (<[identifier := mkAttempt (count a + 1) (clock w (ticks w))]> (authAttempts w))
     (tick w)).
Proof.
  intros H Hw Hc. rewrite checkRateLimit_eq. cbv zeta. rewrite H.
  destruct (Z.ltb_spec win (clock w (ticks w) - lastAttempt a)); [lia |].
  destruct (Z.leb_spec maxA (count a)); [lia | reflexivity].
Qed.

Lemma checkRateLimit_refuse (identifier : string) (maxA win : Z) (w : World) (a : Attempt) :
  authAttempts w !! identifier = Some a ->
  clock w (ticks w) - lastAttempt a <= win -> maxA <= count a ->
  checkRateLimit identifier maxA win w = (Ok false, tick w).
Proof.
  intros H Hw Hc. rewrite checkRateLimit_eq. cbv zeta. rewrite H.
  destruct (Z.ltb_spec win (clock w (ticks w) - lastAttempt a)); [lia |].
  destruct (Z.leb_spec maxA (count a)); [reflexivity | lia].
Qed.

(** Three calls let through and a refused one, for any spacing of the calls
    that keeps each within the window of the one before. *)
Lemma four_attempts_run (w : World) (identifier : string) :
  let t := fun k : nat => clock w (k + ticks w)%nat in
  authAttempts w !! identifier = None ->
  t 1%nat - t 0%nat <= 60000 ->
  t 2%nat - t 1%nat <= 60000 ->
  t 3%nat - t 2%nat <= 60000 ->
  exists w4,
    four_attempts identifier w = (Ok [true; true; true; false], w4) /\
    authAttempts w4 !! identifier = Some (mkAttempt 3 (t 2%nat)).
Proof.
  intros t Hfresh H1 H2 H3. subst t. cbn [Nat.add] in *.
  unfold four_attempts, bind.
  rewrite (checkRateLimit_first _ _ _ _ Hfresh). cbv beta iota.
  erewrite checkRateLimit_allow;
    [| cbn; apply lookup_insert_eq | cbn; lia | cbn; lia].
  cbv beta iota.
  erewrite checkRateLimit_allow;
    [| cbn; apply lookup_insert_eq | cbn; lia | cbn; lia].
  cbv beta iota.
  erewrite checkRateLimit_refuse;
    [| cbn; apply lookup_insert_eq | cbn; lia | cbn; lia].
  cbv beta iota. eexists. split; [reflexivity |].
  cbn. apply lookup_insert_eq.
Qed.

(** C3.  For a fresh identifier, with [maxAttempts = 3] and
    [windowMs = 60000], four calls made in order inside the window of the
    first: calls 1 to 3 answer true and call 4 answers false.  After
    [clearRateLimit] the identifier has no counter at all, and the next call
    answers true. *)
Theorem rate_limit_three_then_block (w : World) (identifier : string) :
  let t := fun k : nat => clock w (k + ticks w)%nat in
  authAttempts w !! identifier = None ->
  t 0%nat <= t 1%nat /\ t 1%nat <= t 2%nat /\ t 2%nat <= t 3%nat /\
  t 3%nat <= t 0%nat + 60000 ->
  let r := four_attempts identifier w in
  let c := clearRateLimit identifier r.2 in
  r.1 = Ok [true; true; true; false] /\
  authAttempts c.2 !! identifier = None /\
  (checkRateLimit identifier 3 60000 c.2).1 = Ok true.
Proof.
  intros t Hfresh (H01 & H12 & H23 & H30) r c.
  subst t. cbv beta in *.
  destruct (four_attempts_run w identifier Hfresh) as (w4 & E & _);
    [lia | lia | lia |].
  subst r c. rewrite E. cbn [fst snd]. split; [reflexivity |].
  assert (Hc : authAttempts (clearRateLimit identifier w4).2 !! identifier = None)
    by (cbn; apply lookup_delete_eq).
  split; [exact Hc |].
  now rewrite (checkRateLimit_first _ _ _ _ Hc).
Qed.

Lemma rate_limit_three_then_block_witness :
  let w := initial_world [1000; 1001; 1500; 61000; 61001] no_fault in
  (four_attempts "test-user@example.com" w).1 = Ok [true; true; true; false] /\
  (checkRateLimit "test-user@example.com" 3 60000
     (clearRateLimit "test-user@example.com"
        (four_attempts "test-user@example.com" w).2).2).1 = Ok true.
Proof.
  intros w.
  destruct (rate_limit_three_then_block w "test-user@example.com") as (H1 & _ & H3).
  - reflexivity.
  - vm_compute. repeat split; discriminate.
  - split; [exact H1 | exact H3].
Defined.

(** ** The store *)

Lemma getUserEnrollments_eq (email : string) (w : World) :
  getUserEnrollments email w =
  (Ok match fault w (List.length (oplog w)) with
      | Some _ => []
      | None => active_for email (enrollments w)
      end,
   log (ScanEnrollments (Some (normalized email))) w).
Proof.
  unfold getUserEnrollments, try_catch, bind, ScanCommand_enrollments, send.
  destruct (fault w (List.length (oplog w))); reflexivity.
Qed.

Lemma isUserEnrolledInClass_eq (email cid : string) (w : World) :
  isUserEnrolledInClass email cid w =
  (Ok (existsb (fun enrollment => String.eqb (classId enrollment) cid)
         match fault w (List.length (oplog w)) with
         | Some _ => []
         | None => active_for email (enrollments w)
         end),
   log (ScanEnrollments (Some (normalized email))) w).
Proof.
  unfold isUserEnrolledInClass, try_catch, bind.
  now rewrite getUserEnrollments_eq.
Qed.

Lemma getAllEnrollments_eq (w : World) :
  getAllEnrollments w =
  (Ok match fault w (List.length (oplog w)) with
      | Some _ => []
      | None => enrollments w
      end,
   log (ScanEnrollments None) w).
Proof.
  unfold getAllEnrollments, try_catch, ScanCommand_enrollments, send.
  destruct (fault w (List.length (oplog w))); reflexivity.
Qed.

Lemma getUserByEmail_eq (email : string) (w : World) :
  getUserByEmail email w =
  match validateEmail email with
  | Throw _ => (Ok None, w)
  | Ok _ =>
      (Ok match fault w (List.length (oplog w)) with
          | Some _ => None
          | None => users w !! normalized email
          end,
       log (GetUser (normalized email)) w)
  end.
Proof.
  unfold getUserByEmail, try_catch, bind, lift, GetCommand_users, send.
  destruct (validateEmail email); [| reflexivity].
  destruct (fault w (List.length (oplog w))); [reflexivity |].
  fold (normalized email). cbn. now destruct (users w !! normalized email).
Qed.

(** ** C10: reads never throw *)

(** C10.  [getUserEnrollments], [isUserEnrolledInClass] and [getUserByEmail]
    return in every world and for every argument, and when the store throws
    on their request they return the empty list, false and null: the answers
    they give when nothing is stored. *)
Theorem reads_never_throw (w : World) (email cid : string) :
  (exists l, (getUserEnrollments email w).1 = Ok l) /\
  (exists b, (isUserEnrolledInClass email cid w).1 = Ok b) /\
  (exists u, (getUserByEmail email w).1 = Ok u) /\
  (forall name, fault w (List.length (oplog w)) = Some name ->
     (getUserEnrollments email w).1 = Ok [] /\
     (isUserEnrolledInClass email cid w).1 = Ok false /\
     (getUserByEmail email w).1 = Ok None).
Proof.
  rewrite getUserEnrollments_eq, isUserEnrolledInClass_eq, getUserByEmail_eq.
  repeat split; cbn [fst].
  - eauto.
  - eauto.
  - destruct (validateEmail email); cbn [fst]; eauto.
  - now rewrite H.
  - now rewrite H.
  - destruct (validateEmail email); cbn [fst]; [now rewrite H | reflexivity].
Qed.

Lemma reads_never_throw_witness :
  let w := (enrollInClass "a@b.co" (Name "Web Development 101") "1"
              (initial_world [5; 6] (fault_after 1))).2 in
  (exists e, enrollments w = [e] /\ e_email e = "a@b.co" /\ classId e = "1"
             /\ status e = active) /\
  (getUserEnrollments "a@b.co" w).1 = Ok [] /\
  (isUserEnrolledInClass "a@b.co" "1" w).1 = Ok false /\
  (getUserByEmail "a@b.co" w).1 = Ok None.
Proof.
  intros w. split.
  - eexists. vm_compute. repeat split; reflexivity.
  - destruct (reads_never_throw w "a@b.co" "1") as (_ & _ & _ & H).
    apply (H "ProvisionedThroughputExceededException"). reflexivity.
Defined.

(** In particular the check POST makes before enrolling: when the store
    throws on that scan the student counts as not enrolled, and a second
    active record is written for the same pair. *)
Example precheck_fault_enrolls_twice :
  let w0 := initial_world [1000; 1001; 1002; 1003; 1004; 1005] (fault_at 3) in
  let first := EnrollmentsRoute.POST (enroll_request "1") w0 in
  let second := EnrollmentsRoute.POST (enroll_request "1") first.2 in
  List.map http_status
    match first.1, second.1 with Ok a, Ok b => [a; b] | _, _ => [] end = [201; 201] /\
  List.map (fun e => (e_email e, classId e, status e)) (enrollments second.2) =
    [("student@example.com", "1", active); ("student@example.com", "1", active)].
Proof. split; vm_compute; reflexivity. Qed.

(** ** C7: user creation *)

(** C7.  [createUser] sends the store at most one request, a put conditioned
    on the absence of the normalized email, and never reads first.  It never
    replaces a stored user; it succeeds only when no user was stored under
    the normalized email; and for valid arguments, with the store answering,
    a user already stored under the normalized email makes it fail with the
    conflict error and leaves the table as it was. *)
Theorem createUser_create_if_absent (w : World) (email hash name sid : string) :
  let key := normalized email in
  let r := createUser email hash name sid w in
  (forall k u, users w !! k = Some u -> users r.2 !! k = Some u) /\
  (oplog r.2 = oplog w \/ oplog r.2 = oplog w ++ [PutUser key true]) /\
  (forall user, r.1 = Ok user ->
     users w !! key = None /\ u_email user = key /\
     users r.2 = <[key := user]> (users w)) /\
  (validateEmail email = Ok tt -> validateName name = Ok tt ->
   validateStudentId sid = Ok tt -> falsy hash = false ->
   fault w (List.length (oplog w)) = None ->
   forall u, users w !! key = Some u ->
     r.1 = Throw (ConflictError "Resource already exists or condition not met") /\
     users r.2 = users w /\
     oplog r.2 = oplog w ++ [PutUser key true]).
Proof.
  cbv zeta. unfold createUser, try_catch, bind, lift, PutCommand_users, send,
    Date_toISOString, Date_now, throw, ret.
  fold (normalized email).
  destruct (validateEmail email) as [[]|e1]; cbn;
    [| repeat split; auto; try discriminate].
  destruct (validateName name) as [[]|e2]; cbn;
    [| repeat split; auto; try discriminate].
  destruct (validateStudentId sid) as [[]|e3]; cbn;
    [| repeat split; auto; try discriminate].
  destruct (falsy hash); cbn; [repeat split; auto; try discriminate |].
  destruct (fault w (List.length (oplog w))) as [nm|]; cbn;
    [repeat split; auto; try discriminate |].
  destruct (users w !! normalized email) as [u0|] eqn:E; cbn.
  - repeat split; auto; try discriminate.
  - repeat split; auto; try discriminate.
    + intros k u Hk. rewrite lookup_insert_ne; [assumption | congruence].
    + injection H as <-. reflexivity.
    + injection H as <-. reflexivity.
Qed.

Lemma createUser_create_if_absent_witness :
  let w1 := (createUser "Ada@Example.com" "$2b$10$hash" "Ada Lovelace" "STU-12345"
               (initial_world [10; 20] no_fault)).2 in
  let r := createUser "ADA@example.COM" "$2b$10$other" "Ada Byron" "STU-99999" w1 in
  (exists u, users w1 !! "ada@example.com" = Some u /\ u_name u = "Ada Lovelace") /\
  r.1 = Throw (ConflictError "Resource already exists or condition not met") /\
  users r.2 = users w1 /\
  oplog r.2 = oplog w1 ++ [PutUser "ada@example.com" true].
Proof.
  intros w1 r. split.
  - eexists. split; vm_compute; reflexivity.
  - destruct (createUser_create_if_absent w1 "ADA@example.COM" "$2b$10$other"
                "Ada Byron" "STU-99999") as (_ & _ & _ & H).
    eapply H; vm_compute; reflexivity.
Defined.

(** ** The enrollments table *)

Lemma put_item_fresh (item : Enrollment) (tbl : list Enrollment) :
  existsb (has_id (e_id item)) tbl = false -> put_item item tbl = tbl ++ [item].
Proof.
  induction tbl as [|x t IH]; cbn; [reflexivity |].
  intros H. apply orb_false_iff in H as [Hx Ht].
  now rewrite Hx, (IH Ht).
Qed.

Lemma put_item_at (item r : Enrollment) (l1 l2 : list Enrollment) :
  existsb (has_id (e_id item)) l1 = false -> e_id r = e_id item ->
  put_item item (l1 ++ r :: l2) = l1 ++ item :: l2.
Proof.
  intros H1 Hr. induction l1 as [|x t IH]; cbn.
  - unfold has_id. now rewrite Hr, String.eqb_refl.
  - cbn in H1. apply orb_false_iff in H1 as [Hx Ht]. now rewrite Hx, (IH Ht).
Qed.

Lemma existsb_has_id_false (i : string) (tbl : list Enrollment) :
  existsb (has_id i) tbl = false <-> ~ In i (List.map e_id tbl).
Proof.
  induction tbl as [|x t IH]; cbn; [tauto |].
  rewrite orb_false_iff, IH. unfold has_id.
  destruct (String.eqb_spec (e_id x) i); intuition congruence.
Qed.

Lemma in_active_for (e : Enrollment) (email : string) (tbl : list Enrollment) :
  In e (active_for email tbl) <->
  In e tbl /\ e_email e = normalized email /\ status e = active.
Proof.
  unfold active_for. rewrite !filter_In, String.eqb_eq.
  destruct (status e); cbn; intuition discriminate.
Qed.

Lemma active_for_app (email : string) (l1 l2 : list Enrollment) :
  active_for email (l1 ++ l2) = active_for email l1 ++ active_for email l2.
Proof. unfold active_for. now rewrite !List.filter_app. Qed.

Lemma filter_none {A} (f : A -> bool) (l : list A) :
  (forall x, In x l -> f x = false) -> List.filter f l = [].
Proof.
  induction l as [|x t IH]; cbn; [reflexivity |]. intros H.
  rewrite (H x (or_introl eq_refl)). apply IH. intros y Hy. apply H. now right.
Qed.

Lemma enrollInClass_eq (email : string) (cn : ClassName) (cid : string) (w : World) :
  enrollInClass email cn cid w =
  let i := enrollment_id email cid (clock w (S (ticks w))) in
  let item := mkEnrollment i (normalized email) cn cid (clock w (ticks w)) active None in
  let w1 := log (PutEnrollment i true) (tick (tick w)) in
  match fault w (List.length (oplog w)) with
  | Some name =>
      (Throw (Error (if String.eqb name "ConditionalCheckFailedException"
                     then "User is already enrolled in this class"
                     else "Failed to enroll in class")), w1)
  | None =>
      if existsb (has_id i) (enrollments w)
      then (Throw (Error "User is already enrolled in this class"), w1)
      else (Ok tt, set_enrollments (put_item item (enrollments w)) w1)
  end.
Proof.
  unfold enrollInClass, try_catch, bind, Date_toISOString, Date_now,
    PutCommand_enrollments, send, throw.
  cbn. fold (enrollment_id email cid (clock w (S (ticks w)))). fold (normalized email).
  destruct (fault w (List.length (oplog w))) as [name|]; cbn.
  - now destruct (String.eqb name "ConditionalCheckFailedException").
  - now destruct (existsb _ (enrollments w)).
Qed.

(** ** C6: enrollment round trip *)

(** C6.  When no active enrollment is stored for the pair and [enrollInClass]
    returns, the list [getUserEnrollments] then reads from the store holds
    exactly one record with that class id, it is active, and
    [isUserEnrolledInClass] answers true.  [enrollInClass] does return when
    the store answers and the id it generates is not in use.  In every world
    [isUserEnrolledInClass] answers true exactly when some record that
    [getUserEnrollments] returns there has the class id. *)
Theorem enroll_then_listed (w : World) (email cn cid : string) :
  let key := normalized email in
  let r := enrollInClass email (Name cn) cid w in
  ((forall e, In e (enrollments w) -> e_email e = key -> classId e = cid ->
              status e = dropped) ->
   r.1 = Ok tt ->
   fault r.2 (List.length (oplog r.2)) = None ->
   (exists l e,
      (getUserEnrollments email r.2).1 = Ok l /\
      List.filter (fun x => String.eqb (classId x) cid) l = [e] /\
      status e = active /\ classId e = cid /\ className e = Name cn /\ e_email e = key) /\
   (isUserEnrolledInClass email cid r.2).1 = Ok true) /\
  (fault w (List.length (oplog w)) = None ->
   ~ In (enrollment_id email cid (clock w (S (ticks w)))) (List.map e_id (enrollments w)) ->
   r.1 = Ok tt) /\
  (forall (w' : World) (c : string),
     exists l b,
       (getUserEnrollments email w').1 = Ok l /\
       (isUserEnrolledInClass email c w').1 = Ok b /\
       (b = true <-> exists e, In e l /\ classId e = c)).
Proof.
  cbv zeta. split; [| split].
  - intros Hnone Hok Hscan. rewrite enrollInClass_eq in *. cbv zeta in *.
    destruct (fault w (List.length (oplog w))) as [name|]; [discriminate |].
    destruct (existsb _ (enrollments w)) eqn:Hid; [discriminate |].
    cbn [fst snd] in *.
    rewrite getUserEnrollments_eq, isUserEnrolledInClass_eq, Hscan.
    cbn [fst enrollments set_enrollments].
    set (item := mkEnrollment _ _ (Name cn) cid _ active None).
    rewrite (put_item_fresh item _ Hid), active_for_app.
    assert (Hitem : active_for email [item] = [item]).
    { unfold active_for. cbn. now rewrite String.eqb_refl. }
    assert (Hold : List.filter (fun x => String.eqb (classId x) cid)
                     (active_for email (enrollments w)) = []).
    { apply filter_none. intros x Hx. apply in_active_for in Hx as (Hin & He & Hs).
      destruct (String.eqb_spec (classId x) cid) as [Hc|]; [| reflexivity].
      rewrite (Hnone x Hin He Hc) in Hs. discriminate. }
    rewrite Hitem. split.
    + exists (active_for email (enrollments w) ++ [item]), item.
      split; [reflexivity |].
      rewrite List.filter_app, Hold. cbn. rewrite String.eqb_refl.
      repeat split; reflexivity.
    + rewrite existsb_app. cbn. rewrite String.eqb_refl.
      now rewrite orb_true_r.
  - intros Hf Hid. rewrite enrollInClass_eq. cbv zeta. rewrite Hf.
    apply existsb_has_id_false in Hid. now rewrite Hid.
  - intros w' c. rewrite getUserEnrollments_eq, isUserEnrolledInClass_eq.
    cbn [fst]. do 2 eexists. split; [reflexivity |]. split; [reflexivity |].
    rewrite existsb_exists. split.
    + intros (e & Hin & He). apply String.eqb_eq in He. eauto.
    + intros (e & Hin & He). exists e. split; [assumption |].
      now apply String.eqb_eq.
Qed.

Lemma enroll_then_listed_witness :
  let w := initial_world [1000; 1001] no_fault in
  let r := enrollInClass "Student@Example.com" (Name "Web Development 101") "1" w in
  r.1 = Ok tt /\
  (exists l e,
     (getUserEnrollments "Student@Example.com" r.2).1 = Ok l /\
     List.filter (fun x => String.eqb (classId x) "1") l = [e] /\
     status e = active /\ classId e = "1" /\
     className e = Name "Web Development 101" /\ e_email e = "student@example.com") /\
  (isUserEnrolledInClass "Student@Example.com" "1" r.2).1 = Ok true.
Proof.
  intros w r.
  destruct (enroll_then_listed w "Student@Example.com" "Web Development 101" "1")
    as (H1 & H2 & _).
  assert (Hok : r.1 = Ok tt).
  { apply H2; [reflexivity |]. cbn. tauto. }
  split; [exact Hok |].
  apply H1; [| exact Hok | reflexivity].
  intros e He. cbn in He. destruct He.
Defined.

Lemma unenrollFromClass_eq (email key : string) (w : World) :
  unenrollFromClass email key w =
  let w1 := log (ScanEnrollments (Some (normalized email))) w in
  match List.find (matches_key key)
          match fault w (List.length (oplog w)) with
          | Some _ => []
          | None => active_for email (enrollments w)
          end with
  | None => (Throw (Error "Failed to unenroll from class"), w1)
  | Some e =>
      let w2 := log (PutEnrollment (e_id e) false) (tick w1) in
      match fault w (S (List.length (oplog w))) with
      | Some _ => (Throw (Error "Failed to unenroll from class"), w2)
      | None =>
          (Ok tt,
           set_enrollments
             (put_item (dropped_copy e (clock w (ticks w))) (enrollments w)) w2)
      end
  end.
Proof.
  unfold unenrollFromClass, try_catch, bind. rewrite getUserEnrollments_eq.
  cbv zeta.
  destruct (List.find _ _) as [e|]; [| reflexivity].
  unfold Date_toISOString, Date_now, PutCommand_enrollments, send.
  cbn [tick log oplog fault clock ticks enrollments andb].
  rewrite length_app. cbn [List.length]. rewrite Nat.add_1_r.
  destruct (fault w (S (List.length (oplog w)))); reflexivity.
Qed.

Lemma find_split {A} (f : A -> bool) (l : list A) (x : A) :
  List.find f l = Some x ->
  exists l1 l2, l = l1 ++ x :: l2 /\ f x = true.
Proof.
  induction l as [|y t IH]; cbn; [discriminate |].
  destruct (f y) eqn:E.
  - intros [= ->]. exists [], t. auto.
  - intros H. destruct (IH H) as (l1 & l2 & -> & Hx). exists (y :: l1), l2. auto.
Qed.

(** With distinct ids, the stored item carrying the id of [r] is [r], and
    writing under that id replaces it where it stands. *)
Lemma put_item_replaces (item r : Enrollment) (tbl : list Enrollment) :
  NoDup (List.map e_id tbl) -> In r tbl -> e_id item = e_id r ->
  exists l1 l2, tbl = l1 ++ r :: l2 /\ put_item item tbl = l1 ++ item :: l2.
Proof.
  intros Hnd Hin Hid. apply in_split in Hin as (l1 & l2 & ->).
  exists l1, l2. split; [reflexivity |].
  apply put_item_at; [| congruence].
  apply existsb_has_id_false. rewrite Hid.
  rewrite map_app in Hnd. cbn in Hnd. apply NoDup_ListNoDup in Hnd.
  apply List.NoDup_remove_2 in Hnd. intros H. apply Hnd, in_or_app. now left.
Qed.

(** Distinct ids are kept by every write. *)
Lemma put_item_ids (item : Enrollment) (tbl : list Enrollment) :
  NoDup (List.map e_id tbl) -> NoDup (List.map e_id (put_item item tbl)).
Proof.
  intros Hnd. destruct (existsb (has_id (e_id item)) tbl) eqn:E.
  - apply existsb_exists in E as (r & Hin & Hr). unfold has_id in Hr.
    apply String.eqb_eq in Hr.
    destruct (put_item_replaces item r tbl Hnd Hin (eq_sym Hr)) as (l1 & l2 & -> & ->).
    rewrite map_app in *. cbn in *. now rewrite <- Hr.
  - rewrite (put_item_fresh _ _ E), map_app. cbn.
    apply NoDup_ListNoDup. apply NoDup_ListNoDup in Hnd.
    apply existsb_has_id_false in E.
    apply List.NoDup_rev in Hnd. rewrite <- (rev_involutive (_ ++ _)).
    apply List.NoDup_rev. rewrite rev_app_distr. cbn. constructor; [| assumption].
    now rewrite <- in_rev.
Qed.

(** ** C5: drop *)

(** C5, as amended.  When the store answers and [unenrollFromClass] finds an
    active record [r] matching the key, it returns and the table afterwards is
    the table before with [r] replaced, in place, by a copy that has status
    dropped and the current instant as [updatedAt] and is otherwise equal to
    [r], so [id] and [enrolledAt] are unchanged and nothing is deleted.
    [getAllEnrollments] then still lists that record, as dropped.
    [isUserEnrolledInClass] for the class id of [r] then answers false,
    provided no other active record of the same email has that class id. *)
Theorem drop_rewrites_one_record (w : World) (email key : string) (r : Enrollment) :
  let n := List.length (oplog w) in
  let now := clock w (ticks w) in
  let res := unenrollFromClass email key w in
  NoDup (List.map e_id (enrollments w)) ->
  fault w n = None -> fault w (S n) = None -> fault w (S (S n)) = None ->
  List.find (matches_key key) (active_for email (enrollments w)) = Some r ->
  res.1 = Ok tt /\
  (exists l1 l2,
     enrollments w = l1 ++ r :: l2 /\
     enrollments res.2 = l1 ++ dropped_copy r now :: l2) /\
  dropped_copy r now =
    mkEnrollment (e_id r) (e_email r) (className r) (classId r) (enrolledAt r)
      dropped (Some now) /\
  (exists all,
     (getAllEnrollments res.2).1 = Ok all /\
     List.length all = List.length (enrollments w) /\
     In (dropped_copy r now) all) /\
  ((forall x, In x (enrollments w) -> x <> r -> e_email x = e_email r ->
              classId x = classId r -> status x = dropped) ->
   (isUserEnrolledInClass email (classId r) res.2).1 = Ok false).
Proof.
  intros n now res Hnd H0 H1 H2 Hfind. subst res n.
  rewrite unenrollFromClass_eq. cbv zeta. rewrite H0, Hfind, H1. cbn [fst snd].
  apply find_split in Hfind as Hsplit. destruct Hsplit as (a1 & a2 & Hact & Hkey).
  assert (Hr : In r (active_for email (enrollments w)))
    by (rewrite Hact; apply in_or_app; right; now left).
  apply in_active_for in Hr as (Hin & Hemail & Hstatus).
  destruct (put_item_replaces (dropped_copy r now) r _ Hnd Hin eq_refl)
    as (l1 & l2 & Htbl & Hput).
  fold now. split; [reflexivity |]. split; [eauto |]. split; [reflexivity |].
  rewrite getAllEnrollments_eq, isUserEnrolledInClass_eq.
  cbn [fst fault set_enrollments log tick oplog enrollments].
  rewrite !length_app. cbn [List.length].
  replace (List.length (oplog w) + 1 + 1)%nat with (S (S (List.length (oplog w))))
    by lia.
  rewrite H2, Hput. split.
  - eexists. split; [reflexivity |]. split.
    + rewrite Htbl, !length_app. reflexivity.
    + apply in_or_app. right. now left.
  - intros Honly. f_equal. apply not_true_is_false. intros Hex.
    apply existsb_exists in Hex as (x & Hx & Hc). apply String.eqb_eq in Hc.
    apply in_active_for in Hx as (Hxin & Hxe & Hxs).
    rewrite Htbl in Hnd, Honly.
    apply in_app_or in Hxin as [Hxin | [<- | Hxin]].
    + assert (x <> r).
      { intros ->. rewrite map_app in Hnd. cbn in Hnd. apply NoDup_ListNoDup in Hnd.
        apply List.NoDup_remove_2 in Hnd. apply Hnd, in_or_app. left.
        now apply in_map. }
      rewrite (Honly x) in Hxs; [discriminate | | assumption | congruence | assumption].
      apply in_or_app. now left.
    + discriminate.
    + assert (x <> r).
      { intros ->. rewrite map_app in Hnd. cbn in Hnd. apply NoDup_ListNoDup in Hnd.
        apply List.NoDup_remove_2 in Hnd. apply Hnd, in_or_app. right.
        now apply in_map. }
      rewrite (Honly x) in Hxs; [discriminate | | assumption | congruence | assumption].
      apply in_or_app. right. now right.
Qed.

Lemma drop_rewrites_one_record_witness :
  let w1 := (enrollInClass "Student@Example.com" (Name "Web Development 101") "1"
               (initial_world [1000; 1001; 2000] no_fault)).2 in
  let res := unenrollFromClass "Student@Example.com" "1" w1 in
  res.1 = Ok tt /\
  (exists all,
     (getAllEnrollments res.2).1 = Ok all /\ List.length all = 1%nat /\
     In (dropped_copy web_dev_enrollment 2000) all) /\
  (isUserEnrolledInClass "Student@Example.com" "1" res.2).1 = Ok false.
Proof.
  intros w1 res.
  destruct (drop_rewrites_one_record w1 "Student@Example.com" "1" web_dev_enrollment)
    as (H1 & _ & _ & H4 & H5).
  - change (enrollments w1) with [web_dev_enrollment]. apply NoDup_singleton.
  - reflexivity.
  - reflexivity.
  - reflexivity.
  - reflexivity.
  - split; [exact H1 |]. split; [exact H4 |].
    apply H5. change (enrollments w1) with [web_dev_enrollment].
    intros x [Hx | []] Hne. congruence.
Defined.

(** C5 as stated fails when the pair has two active records: two calls of
    [enrollInClass] for the same email and class store two, the drop rewrites
    the first, and [isUserEnrolledInClass] still answers true. *)
Lemma drop_leaves_duplicate_counterexample :
  let w0 := initial_world [1000; 1001; 1002; 1003; 2000] no_fault in
  let w1 := (enrollInClass "Student@Example.com" (Name "Web Development 101") "1" w0).2 in
  let w2 := (enrollInClass "Student@Example.com" (Name "Web Development 101") "1" w1).2 in
  let res := unenrollFromClass "Student@Example.com" "1" w2 in
  res.1 = Ok tt /\
  List.map status (enrollments res.2) = [dropped; active] /\
  (isUserEnrolledInClass "Student@Example.com" "1" res.2).1 = Ok true.
Proof. repeat split; vm_compute; reflexivity. Qed.

(** Distinct ids are an invariant of the repository: both operations that
    write to the enrollments table keep them distinct. *)
Lemma repository_keeps_ids_distinct (w : World) (email a b : string) (cn : ClassName) :
  NoDup (List.map e_id (enrollments w)) ->
  NoDup (List.map e_id (enrollments (enrollInClass email cn b w).2)) /\
  NoDup (List.map e_id (enrollments (unenrollFromClass email a w).2)).
Proof.
  intros Hnd. rewrite enrollInClass_eq, unenrollFromClass_eq. cbv zeta. split.
  - destruct (fault w (List.length (oplog w))); [exact Hnd |].
    destruct (existsb _ (enrollments w)); [exact Hnd |].
    cbn [snd enrollments set_enrollments]. now apply put_item_ids.
  - destruct (List.find _ _); [| exact Hnd].
    destruct (fault w (S (List.length (oplog w)))); [exact Hnd |].
    cbn [snd enrollments set_enrollments]. now apply put_item_ids.
Qed.

(** ** C4: drop without a matching enrollment *)

Lemma unenrollFromClass_none (email key : string) (w : World) :
  List.find (matches_key key)
    match fault w (List.length (oplog w)) with
    | Some _ => []
    | None => active_for email (enrollments w)
    end = None ->
  unenrollFromClass email key w =
  (Throw (Error "Failed to unenroll from class"),
   log (ScanEnrollments (Some (normalized email))) w).
Proof. intros H. rewrite unenrollFromClass_eq. cbv zeta. now rewrite H. Qed.

(** C4, as the code has it.  When no active enrollment of the email matches
    the key, [unenrollFromClass] throws, but what it throws is the error
    [Failed to unenroll from class], the same it throws when the store fails;
    the table is left as it was, and DELETE answers 500 with its general
    message. *)
Theorem drop_not_found_is_generic (w : World) (email key : string) :
  let res := unenrollFromClass email key w in
  List.find (matches_key key) (active_for email (enrollments w)) = None ->
  res.1 = Throw (Error "Failed to unenroll from class") /\
  enrollments res.2 = enrollments w /\
  (forall key' name,
     fault w (List.length (oplog w)) = Some name ->
     (unenrollFromClass email key' w).1 = res.1) /\
  (forall request user body,
     validateMethod request ["DELETE"] = true ->
     validateContentType request "application/json" = true ->
     session request = Some (mkSession (Some user)) ->
     su_email user = email -> falsy email = false ->
     parseRequestBody request 512 = Ok body ->
     get_field "className" body = Some (JString key) -> falsy key = false ->
     (EnrollmentsRoute.DELETE request w).1 =
     Ok (createErrorResponse
           (Text "Failed to unenroll from class. Please try again.")
           HTTP_STATUS.INTERNAL_SERVER_ERROR)).
Proof.
  intros res Hnone. subst res.
  assert (E : unenrollFromClass email key w =
              (Throw (Error "Failed to unenroll from class"),
               log (ScanEnrollments (Some (normalized email))) w)).
  { apply unenrollFromClass_none.
    destruct (fault w (List.length (oplog w))); [reflexivity | exact Hnone]. }
  rewrite E. cbn [fst snd]. repeat split.
  - intros key' name Hf. rewrite unenrollFromClass_none; [reflexivity |].
    now rewrite Hf.
  - intros request user body Hm Hc Hs Hu He Hb Hk Hkey. subst email.
    unfold EnrollmentsRoute.DELETE, try_catch, bind, lift,
      EnrollmentsRoute.requireAuthentication.
    rewrite Hm, Hc, Hs, He, Hb, Hk, Hkey. cbn [negb ret].
    rewrite E. reflexivity.
Qed.

Lemma drop_not_found_is_generic_witness :
  let w := initial_world [1000] no_fault in
  (unenrollFromClass "Student@Example.com" "Web Development 101" w).1 =
    Throw (Error "Failed to unenroll from class") /\
  (EnrollmentsRoute.DELETE (unenroll_request "Web Development 101") w).1 =
    Ok (mkResponse 500
          (ApiResponse false None None
             (Some (Text "Failed to unenroll from class. Please try again.")))).
Proof.
  intros w.
  destruct (drop_not_found_is_generic w "Student@Example.com" "Web Development 101")
    as (H1 & _ & _ & H4); [reflexivity |].
  split; [exact H1 |].
  apply (H4 (unenroll_request "Web Development 101") student
            (JObject [("className", JString "Web Development 101")]));
    reflexivity.
Defined.

(** ** C1: enrolling twice *)

Lemma isAllowed_frame (identifier : string) (w : World) :
  let r := EnrollmentsRoute.apiRateLimiter_isAllowed identifier w in
  enrollments r.2 = enrollments w /\ users r.2 = users w /\
  oplog r.2 = oplog w /\ fault r.2 = fault w.
Proof.
  cbv zeta. rewrite isAllowed_eq. cbv zeta.
  destruct (attempts (apiRateLimiter w) !! identifier) as [a|];
    [destruct (resetTime a <? clock w (ticks w));
     [| destruct (maxAttempts (apiRateLimiter w) <=? w_count a)] |];
    repeat split.
Qed.

(** C1, as the code has it.  When the signed-in student already has an active
    enrollment in the class, a well-formed enroll request that passes the
    limiter, with the store answering, is refused: POST answers 409 with
    [success] false and the message [You are already enrolled in this class],
    and the table is left as it was. *)
Theorem enroll_again_is_conflict (w : World) (request : NextRequest)
    (user : SessionUser) (body : Json) (cid : string) :
  let res := EnrollmentsRoute.POST request w in
  validateMethod request ["POST"] = true ->
  validateContentType request "application/json" = true ->
  session request = Some (mkSession (Some user)) ->
  falsy (su_email user) = false ->
  (EnrollmentsRoute.apiRateLimiter_isAllowed
     ("enrollment-" +:+ su_email user +:+ "-" +:+ getClientIP request) w).1 = Ok true ->
  parseRequestBody request 512 = Ok body ->
  enrollmentSchema body = Some (cid, enroll) ->
  fault w (List.length (oplog w)) = None ->
  (exists e, In e (enrollments w) /\ e_email e = normalized (su_email user) /\
             classId e = cid /\ status e = active) ->
  res.1 = Ok (mkResponse 409
                (ApiResponse false None None
                   (Some (Text "You are already enrolled in this class")))) /\
  enrollments res.2 = enrollments w.
Proof.
  intros res Hm Hc Hs He Hallowed Hb Hschema Hfault (e & Hin & Hemail & Hcid & Hst).
  subst res.
  unfold EnrollmentsRoute.POST, try_catch, bind, lift,
    EnrollmentsRoute.requireAuthentication.
  rewrite Hm, Hc, Hs, He. cbn [negb ret].
  pose proof (isAllowed_frame
                ("enrollment-" +:+ su_email user +:+ "-" +:+ getClientIP request) w)
    as (Fe & _ & Fo & Ff).
  destruct (EnrollmentsRoute.apiRateLimiter_isAllowed _ w) as [o w1].
  cbn [fst snd] in *. subst o. cbn [negb].
  rewrite Hb, Hschema, isUserEnrolledInClass_eq, Ff, Fo, Hfault, Fe.
  assert (Hex : existsb (fun enrollment => String.eqb (classId enrollment) cid)
                  (active_for (su_email user) (enrollments w)) = true).
  { apply existsb_exists. exists e. split.
    - apply in_active_for. auto.
    - now apply String.eqb_eq. }
  rewrite Hex. cbn. auto.
Qed.

Lemma enroll_again_is_conflict_witness :
  let w0 := initial_world [1000; 1001; 1002; 1003] no_fault in
  let first := EnrollmentsRoute.POST (enroll_request "1") w0 in
  let second := EnrollmentsRoute.POST (enroll_request "1") first.2 in
  (exists r, first.1 = Ok r /\ http_status r = 201) /\
  second.1 = Ok (mkResponse 409
                   (ApiResponse false None None
                      (Some (Text "You are already enrolled in this class")))) /\
  enrollments second.2 = enrollments first.2 /\
  List.map status (enrollments second.2) = [active].
Proof.
  intros w0 first second.
  split; [eexists; split; reflexivity |].
  destruct (enroll_again_is_conflict first.2 (enroll_request "1") student
              (JObject [("classId", JString "1"); ("action", JString "enroll")]) "1")
    as (H1 & H2); try reflexivity.
  - exists (mkEnrollment "Student@Example.com-1-1002" "student@example.com"
              (Name "Web Development 101") "1" 1001 active None).
    repeat split. left. reflexivity.
  - split; [exact H1 |]. split; [exact H2 |]. vm_compute. reflexivity.
Defined.

(** The other path of POST for a duplicate: when the conditional write of the
    repository is what reports it, the handler answers 200 with
    [alreadyEnrolled].  Here the clock stands still, so the second enrollment
    generates the id of the record that was dropped in between. *)
Example enroll_duplicate_id_is_success :
  let w0 := initial_world (List.repeat 1000 12) no_fault in
  let w1 := (EnrollmentsRoute.POST (enroll_request "1") w0).2 in
  let w2 := (EnrollmentsRoute.DELETE (unenroll_request "1") w1).2 in
  let again := EnrollmentsRoute.POST (enroll_request "1") w2 in
  again.1 =
    Ok (mkResponse 200
          (ApiResponse true
             (Some (EnrollData "You are already enrolled in this class" "1"
                      (Name "Web Development 101") true))
             (Some "Already enrolled") None)) /\
  List.map status (enrollments again.2) = [dropped].
Proof. split; vm_compute; reflexivity. Qed.

(** ** C9: requests without an identity *)

Lemma requireAuthentication_none (request : NextRequest) (w : World) :
  no_identity request = true ->
  EnrollmentsRoute.requireAuthentication request w =
  (Throw (Error "Authentication required"), w).
Proof.
  unfold no_identity, EnrollmentsRoute.requireAuthentication.
  destruct (session request) as [[[u|]]|]; try reflexivity.
  intros ->. reflexivity.
Qed.

(** C9, as amended.  A request without a resolved identity is refused by all
    three handlers and leaves the world as it was: no request reaches the
    store, no table changes and the limiter is not consulted.  GET answers
    401 [Unauthorized]; POST and DELETE answer 401 [Authentication required]
    when the method and content type pass the checks the handler makes first,
    and 400 when one of them does not. *)
Theorem unauthenticated_requests_write_nothing (w : World) (request : NextRequest) :
  no_identity request = true ->
  EnrollmentsRoute.GET request w =
    (Ok (mkResponse 401 (JsonError "Unauthorized")), w) /\
  EnrollmentsRoute.POST request w =
    (Ok (if negb (validateMethod request ["POST"])
         then createErrorResponse (Text "Method not allowed") 400
         else if negb (validateContentType request "application/json")
         then createErrorResponse (Text "Invalid content type") 400
         else createErrorResponse (Text "Authentication required") 401), w) /\
  EnrollmentsRoute.DELETE request w =
    (Ok (if negb (validateMethod request ["DELETE"])
         then createErrorResponse (Text "Method not allowed") 400
         else if negb (validateContentType request "application/json")
         then createErrorResponse (Text "Invalid content type") 400
         else createErrorResponse (Text "Authentication required") 401), w).
Proof.
  intros H. repeat split.
  - unfold EnrollmentsRoute.GET, try_catch, bind.
    now rewrite (requireAuthentication_none _ _ H).
  - unfold EnrollmentsRoute.POST, try_catch, bind.
    destruct (validateMethod request ["POST"]); [| reflexivity].
    destruct (validateContentType request "application/json"); [| reflexivity].
    cbn [negb]. now rewrite (requireAuthentication_none _ _ H).
  - unfold EnrollmentsRoute.DELETE, try_catch, bind.
    destruct (validateMethod request ["DELETE"]); [| reflexivity].
    destruct (validateContentType request "application/json"); [| reflexivity].
    cbn [negb]. now rewrite (requireAuthentication_none _ _ H).
Qed.

Lemma unauthenticated_requests_write_nothing_witness :
  let w := (enrollInClass "Student@Example.com" (Name "Web Development 101") "1"
              (initial_world [1000; 1001] no_fault)).2 in
  let request :=
    mkRequest "POST" (Some "application/json") None None None None None
      (Some (JObject [("classId", JString "2"); ("action", JString "enroll")]))
      (Some (mkSession None)) in
  EnrollmentsRoute.POST request w =
    (Ok (mkResponse 401
           (ApiResponse false None None (Some (Text "Authentication required")))), w) /\
  EnrollmentsRoute.GET request w =
    (Ok (mkResponse 401 (JsonError "Unauthorized")), w).
Proof.
  intros w request.
  destruct (unauthenticated_requests_write_nothing w request) as (HG & HP & _);
    [reflexivity |].
  split; [exact HP | exact HG].
Defined.

(** C9 as stated fails for a POST that has neither a session nor a JSON
    content type: the content-type check comes first and the answer is 400
    [Invalid content type], not an authentication error. *)
Lemma unauthenticated_post_bad_request_counterexample :
  no_identity anonymous_post = true /\
  (EnrollmentsRoute.POST anonymous_post (initial_world [] no_fault)).1 =
    Ok (mkResponse 400
          (ApiResponse false None None (Some (Text "Invalid content type")))) /\
  http_status (mkResponse 400
                 (ApiResponse false None None (Some (Text "Invalid content type"))))
    <> HTTP_STATUS.UNAUTHORIZED.
Proof.
  split; [reflexivity |]. split; [vm_compute; reflexivity | discriminate].
Qed.
(** * Further properties of the code *)

(** ** lib/db-errors and lib/db: creating and finding users *)

Lemma validateEmail_cases (email : string) :
  validateEmail email = Ok tt \/ exists m, validateEmail email = Throw (ValidationError m).
Proof.
  unfold validateEmail.
  destruct (falsy email); [eauto |].
  destruct (negb (emailRegex email)); [eauto |].
  destruct (len email >? 254); eauto.
Qed.

Lemma validateName_cases (name : string) :
  validateName name = Ok tt \/ exists m, validateName name = Throw (ValidationError m).
Proof.
  unfold validateName.
  destruct (falsy name); [eauto |].
  destruct ((len name <? 2) || (len name >? 50)); [eauto |].
  destruct (negb (nameRegex name)); eauto.
Qed.

Lemma validateStudentId_cases (sid : string) :
  validateStudentId sid = Ok tt \/
  exists m, validateStudentId sid = Throw (ValidationError m).
Proof.
  unfold validateStudentId.
  destruct (falsy sid); [eauto |].
  destruct ((len sid <? 5) || (len sid >? 20)); [eauto |].
  destruct (negb (studentIdRegex sid)); eauto.
Qed.

(** X1.  When an argument of [createUser] fails its validation, or the
    password hash is empty, the caller does not see the validation error:
    [createUser] throws the internal error (code INTERNAL_ERROR, status 500)
    whatever the failed check, and nothing is sent to the store. *)
Theorem createUser_invalid_is_internal_error (w : World)
    (email hash name sid : string) :
  validateEmail email <> Ok tt \/ validateName name <> Ok tt \/
  validateStudentId sid <> Ok tt \/ falsy hash = true ->
  createUser email hash name sid w = (Throw internal_error, w).
Proof.
  intros H.
  unfold createUser, try_catch, bind, lift, throw.
  destruct (validateEmail_cases email) as [E | [m E]]; rewrite E;
    [| reflexivity].
  destruct (validateName_cases name) as [N | [m N]]; rewrite N;
    [| reflexivity].
  destruct (validateStudentId_cases sid) as [S | [m S]]; rewrite S;
    [| reflexivity].
  destruct (falsy hash); [reflexivity |].
  destruct H as [H | [H | [H | H]]]; congruence.
Qed.

Lemma createUser_invalid_is_internal_error_witness :
  let w := initial_world [10] no_fault in
  createUser "not-an-email" ada_hash ada_name ada_id w = (Throw internal_error, w) /\
  createUser ada_email ada_hash "X" ada_id w = (Throw internal_error, w).
Proof.
  intros w. split; apply createUser_invalid_is_internal_error.
  - left. discriminate.
  - right. left. discriminate.
Defined.

Lemma all_chars_app (cls : ascii -> bool) (a b : string) :
  all_chars cls (a +:+ b) = all_chars cls a && all_chars cls b.
Proof.
  induction a as [|c a IH]; cbn; [reflexivity |].
  now rewrite IH, andb_assoc.
Qed.

Lemma falsy_false (s : string) : falsy s = false <-> s <> "".
Proof. destruct s; cbn; split; congruence. Qed.

Lemma split_first_spec (c : ascii) (s l r : string) :
  split_first c s = Some (l, r) <->
  s = l +:+ String c r /\ all_chars (fun a => negb (Ascii.eqb a c)) l = true.
Proof.
  revert l r. induction s as [|a s IH]; intros l r; cbn.
  - split; [discriminate |]. intros [E _]. destruct l; discriminate.
  - destruct (Ascii.eqb_spec a c) as [-> | Hne].
    + split.
      * intros [= <- <-]. auto.
      * intros [E H]. destruct l as [|b l]; cbn in *.
        -- now injection E as ->.
        -- injection E as <- _. rewrite Ascii.eqb_refl in H. discriminate.
    + destruct (split_first c s) as [[l0 r0]|] eqn:Es.
      * destruct (IH l0 r0) as [IH1 _]. destruct (IH1 eq_refl) as [-> Hl0].
        split.
        -- intros [= <- <-]. cbn. split; [reflexivity |].
           destruct (Ascii.eqb_spec a c); [contradiction | exact Hl0].
        -- intros [E H]. destruct l as [|b l]; cbn in *.
           ++ injection E as -> _. contradiction.
           ++ injection E as <- E. apply andb_true_iff in H as [_ H].
              destruct (IH l r) as [_ IH2]. specialize (IH2 (conj E H)).
              congruence.
      * split; [discriminate |]. intros [E H].
        destruct l as [|b l]; cbn in *.
        -- injection E as -> _. contradiction.
        -- injection E as <- E. apply andb_true_iff in H as [_ H].
           destruct (IH l r) as [_ IH2]. specialize (IH2 (conj E H)). discriminate.
Qed.

Lemma dot_inside_spec (d : string) :
  dot_inside d = true <->
  exists x y, d = x +:+ String "." y /\ x <> "" /\ y <> "".
Proof.
  induction d as [|a d IH]; cbn.
  - split; [discriminate |]. intros (x & y & E & _). destruct x; discriminate.
  - destruct d as [|c t].
    + split; [discriminate |].
      intros (x & y & E & Hx & Hy). destruct x as [|b x]; [congruence |].
      cbn in E. injection E as _ E. destruct x; discriminate.
    + rewrite orb_true_iff, IH, andb_true_iff, Ascii.eqb_eq, negb_true_iff,
        falsy_false. split.
      * intros [[-> Ht] | (x & y & E & Hx & Hy)].
        -- exists (String a ""), t. cbn.
           split; [reflexivity | split; [discriminate | assumption]].
        -- exists (String a x), y. cbn.
           split; [now rewrite E | split; [discriminate | assumption]].
      * intros (x & y & E & Hx & Hy).
        destruct x as [|b x]; [congruence |]. cbn in E. injection E as <- E.
        destruct x as [|b' x]; cbn in E.
        -- injection E as -> <-. left. auto.
        -- right. exists (String b' x), y.
           split; [assumption | split; [discriminate | assumption]].
Qed.

Lemma atom_not_at (l : string) :
  all_chars email_atom l = true ->
  all_chars (fun a => negb (Ascii.eqb a "@")) l = true.
Proof.
  induction l as [|c l IH]; cbn; [reflexivity |].
  unfold email_atom at 1. rewrite !andb_true_iff. intros [[_ H] Hl]. auto.
Qed.

Lemma validateEmail_shape (s : string) :
  (emailRegex s = true <-> email_shape s) /\
  (validateEmail s = Ok tt <-> email_shape s /\ len s <= 254).
Proof.
  assert (R : emailRegex s = true <-> email_shape s).
  { unfold emailRegex, email_shape, one_or_more. split.
    - destruct (split_first "@" s) as [[l d]|] eqn:E; [| discriminate].
      apply split_first_spec in E as [-> _].
      rewrite !andb_true_iff, negb_true_iff, falsy_false.
      intros [[[Hl Al] Ad] Hd].
      apply dot_inside_spec in Hd as (x & y & -> & Hx & Hy).
      rewrite all_chars_app in Ad. cbn in Ad.
      apply andb_true_iff in Ad as [Ax Ay]. apply andb_true_iff in Ay as [_ Ay].
      exists l, x, y. repeat split; assumption.
    - intros (l & x & y & -> & Hl & Hx & Hy & Al & Ax & Ay).
      assert (E : split_first "@" (l +:+ String "@" (x +:+ String "." y)) =
                  Some (l, x +:+ String "." y)).
      { apply split_first_spec. split; [reflexivity | now apply atom_not_at]. }
      rewrite E, !andb_true_iff, negb_true_iff, falsy_false.
      repeat split; try assumption.
      + rewrite all_chars_app. cbn. now rewrite Ax, Ay.
      + apply dot_inside_spec. eauto. }
  split; [exact R |].
  unfold validateEmail. destruct (falsy s) eqn:F.
  - split; [discriminate |]. intros [(l & x & y & -> & Hl & _) _].
    destruct l; [congruence | discriminate].
  - destruct (emailRegex s) eqn:Re; cbn.
    + rewrite Z.gtb_ltb. destruct (Z.ltb_spec 254 (len s)).
      * split; [discriminate | lia].
      * split; [| reflexivity]. intros _. split; [now apply R | assumption].
    + split; [discriminate |]. intros [H _]. apply R in H. discriminate.
Qed.

(** X2.  The format check of [validateEmail] accepts exactly the strings of
    the shape [local@x.y] whose three parts are non-empty and free of white
    space and of [@]; [validateEmail] returns exactly for those of them that
    are at most 254 code units long. *)
Theorem validateEmail_accepts_shape (s : string) :
  (emailRegex s = true <-> email_shape s) /\
  (validateEmail s = Ok tt <-> email_shape s /\ len s <= 254).
Proof. exact (validateEmail_shape s). Qed.

Lemma lower_char_facts (c : ascii) :
  is_space (lower_char c) = is_space c /\
  Ascii.eqb (lower_char c) "@" = Ascii.eqb c "@" /\
  Ascii.eqb (lower_char c) "." = Ascii.eqb c ".".
Proof.
  assert (H : forallb (fun c =>
              Bool.eqb (is_space (lower_char c)) (is_space c)
              && Bool.eqb (Ascii.eqb (lower_char c) "@") (Ascii.eqb c "@")
              && Bool.eqb (Ascii.eqb (lower_char c) ".") (Ascii.eqb c "."))
              all_ascii = true) by (vm_compute; reflexivity).
  pose proof (forall_ascii _ H c) as Hc. cbn beta in Hc.
  apply andb_true_iff in Hc as [Hc H3]. apply andb_true_iff in Hc as [H1 H2].
  apply eqb_prop in H1, H2, H3. auto.
Qed.

Lemma toLowerCase_atoms (s : string) :
  all_chars email_atom (toLowerCase s) = all_chars email_atom s.
Proof.
  induction s as [|c s IH]; cbn; [reflexivity |]. rewrite IH. unfold email_atom.
  destruct (lower_char_facts c) as (-> & -> & _). reflexivity.
Qed.

Lemma toLowerCase_nonempty (s : string) : s <> "" -> toLowerCase s <> "".
Proof. destruct s; cbn; congruence. Qed.

Lemma toLowerCase_shape (s : string) : email_shape s -> email_shape (toLowerCase s).
Proof.
  intros (l & x & y & -> & Hl & Hx & Hy & Al & Ax & Ay).
  exists (toLowerCase l), (toLowerCase x), (toLowerCase y).
  rewrite !toLowerCase_atoms.
  repeat (split; [first [assumption | now apply toLowerCase_nonempty | idtac] |]);
    [| assumption].
  rewrite toLowerCase_app. cbn. rewrite toLowerCase_app. reflexivity.
Qed.

Lemma shape_no_space (s : string) : email_shape s -> no_space s = true.
Proof.
  assert (A : forall t, all_chars email_atom t = true -> no_space t = true).
  { unfold no_space. induction t as [|c t IH]; cbn; [reflexivity |].
    unfold email_atom at 1. rewrite !andb_true_iff. intros [[H _] Ht]. auto. }
  intros (l & x & y & -> & _ & _ & _ & Al & Ax & Ay).
  unfold no_space in *. rewrite all_chars_app. cbn. rewrite all_chars_app. cbn.
  now rewrite (A _ Al), (A _ Ax), (A _ Ay).
Qed.

Lemma trimEnd_no_space (s : string) : no_space s = true -> trimEnd s = s.
Proof.
  unfold no_space. induction s as [|c s IH]; cbn; [reflexivity |].
  rewrite andb_true_iff, negb_true_iff. intros [Hc Hs]. rewrite (IH Hs), Hc.
  now destruct s.
Qed.

Lemma trim_no_space (s : string) : no_space s = true -> trim s = s.
Proof.
  intros H. unfold trim.
  assert (E : trimStart s = s).
  { destruct s as [|c s]; [reflexivity |]. cbn in *.
    unfold no_space in H. cbn in H. apply andb_true_iff in H as [Hc _].
    apply negb_true_iff in Hc. now rewrite Hc. }
  rewrite E. now apply trimEnd_no_space.
Qed.

Lemma normal_form_of_valid (email : string) :
  validateEmail email = Ok tt ->
  no_space email = true /\ normalized email = toLowerCase email.
Proof.
  intros H. apply validateEmail_shape in H as [Hs Hl].
  split; [apply shape_no_space, Hs |].
  unfold normalized. apply trim_no_space, shape_no_space, toLowerCase_shape, Hs.
Qed.

Lemma trim_changes_space (s : string) : trim s <> s -> no_space s = false.
Proof.
  intros H. destruct (no_space s) eqn:N; [| reflexivity].
  now apply trim_no_space in N.
Qed.

(** X3.  Validation comes before trimming.  An email that [validateEmail]
    accepts holds no white space: [trim] leaves it as it is, and the key
    [email.toLowerCase().trim()] under which a user is stored and looked up
    is just the lower-cased email.  An email that [trim] would change is
    refused instead: [validateEmail] throws, and [getUserByEmail] answers
    null without asking the store, whoever is stored under the trimmed
    email. *)
Theorem validated_email_is_never_trimmed (email : string) :
  (validateEmail email = Ok tt ->
   no_space email = true /\ trim email = email /\
   normalized email = toLowerCase email) /\
  (trim email <> email ->
   validateEmail email <> Ok tt /\
   forall w, getUserByEmail email w = (Ok None, w)).
Proof.
  split.
  - intros H. destruct (normal_form_of_valid email H) as [N E].
    split; [exact N |]. split; [apply trim_no_space, N | exact E].
  - intros H. apply trim_changes_space in H.
    assert (V : validateEmail email <> Ok tt).
    { intros V. apply normal_form_of_valid in V as [N _]. congruence. }
    split; [exact V |]. intros w. rewrite getUserByEmail_eq.
    destruct (validateEmail email) as [[]|e]; [contradiction | reflexivity].
Qed.

Lemma validated_email_is_never_trimmed_witness :
  let w := set_users {[ "ada@example.com" := ada_stored ]} (initial_world [] no_fault) in
  normalized ada_email = "ada@example.com" /\
  getUserByEmail " ada@example.com" w = (Ok None, w).
Proof.
  intros w. split.
  - destruct (proj1 (validated_email_is_never_trimmed ada_email)) as (_ & _ & H);
      [reflexivity | rewrite H; reflexivity].
  - apply (proj2 (validated_email_is_never_trimmed " ada@example.com")).
    vm_compute. discriminate.
Defined.

Lemma createUser_valid (w : World) (email hash name sid : string) :
  validateEmail email = Ok tt -> validateName name = Ok tt ->
  validateStudentId sid = Ok tt -> falsy hash = false ->
  createUser email hash name sid w =
  let now := clock w (ticks w) in
  let user := mkUser (normalized email) hash (trim name) (trim sid) now now in
  let w1 := log (PutUser (normalized email) true) (tick w) in
  match fault w (List.length (oplog w)) with
  | Some nm => (Throw (handleDynamoDBError (SdkError nm)), w1)
  | None =>
      match users w !! normalized email with
      | Some _ =>
          (Throw (ConflictError "Resource already exists or condition not met"), w1)
      | None => (Ok user, set_users (<[normalized email := user]> (users w)) w1)
      end
  end.
Proof.
  intros He Hn Hs Hh.
  unfold createUser, try_catch, bind, lift, throw, ret, Date_toISOString, Date_now,
    PutCommand_users, send.
  rewrite He, Hn, Hs, Hh. fold (normalized email). cbn.
  destruct (fault w (List.length (oplog w))); [reflexivity |].
  now destruct (users w !! normalized email).
Qed.

Lemma studentId_no_space (sid : string) :
  validateStudentId sid = Ok tt -> no_space sid = true.
Proof.
  unfold validateStudentId, studentIdRegex, one_or_more, no_space.
  destruct (falsy sid); [discriminate |].
  destruct ((len sid <? 5) || (len sid >? 20)); [discriminate |].
  destruct (all_chars _ sid) eqn:A; [| discriminate]. intros _. cbn in A.
  induction sid as [|c s IH]; cbn in *; [reflexivity |].
  apply andb_true_iff in A as [Hc Hs]. rewrite (IH Hs), andb_true_r.
  assert (H : forallb (fun c =>
              implb (is_lower c || is_upper c || is_digit c || Ascii.eqb c "-")
                    (negb (is_space c))) all_ascii = true)
    by (vm_compute; reflexivity).
  pose proof (forall_ascii _ H c) as Hi. cbn beta in Hi. now rewrite Hc in Hi.
Qed.

(** X4.  Creating a user and looking it up.  For valid arguments, a store
    that answers and no user under the normalized email, [createUser] returns
    the stored record: the lower-cased email, the hash as given, the trimmed
    name, the student id exactly as given (it is not upper-cased) and the
    current instant twice.  [getUserByEmail] then returns that record for
    every accepted spelling of the email with the same lower-case form, and
    the records stored under other keys are as before. *)
Theorem createUser_then_getUserByEmail (w : World) (email hash name sid : string) :
  let n := List.length (oplog w) in
  let now := clock w (ticks w) in
  let user := mkUser (toLowerCase email) hash (trim name) sid now now in
  let r := createUser email hash name sid w in
  validateEmail email = Ok tt -> validateName name = Ok tt ->
  validateStudentId sid = Ok tt -> falsy hash = false ->
  fault w n = None -> fault w (S n) = None ->
  users w !! normalized email = None ->
  r.1 = Ok user /\
  (forall email', validateEmail email' = Ok tt ->
                  toLowerCase email' = toLowerCase email ->
                  (getUserByEmail email' r.2).1 = Ok (Some user)) /\
  (forall other, other <> toLowerCase email -> users r.2 !! other = users w !! other).
Proof.
  intros n now user r He Hn Hs Hh F0 F1 Hfree. subst r user n now.
  rewrite (createUser_valid _ _ _ _ _ He Hn Hs Hh). cbv zeta.
  rewrite F0, Hfree. cbn [fst snd].
  destruct (normal_form_of_valid email He) as (_ & En).
  rewrite En, (trim_no_space sid (studentId_no_space _ Hs)).
  set (user := mkUser (toLowerCase email) hash (trim name) sid
                 (clock w (ticks w)) (clock w (ticks w))).
  assert (L : forall email', validateEmail email' = Ok tt ->
                toLowerCase email' = toLowerCase email ->
                (getUserByEmail email'
                   (set_users (<[toLowerCase email := user]> (users w))
                      (log (PutUser (toLowerCase email) true) (tick w)))).1 =
                Ok (Some user)).
  { intros email' He' Heq. rewrite getUserByEmail_eq, He'.
    cbn [fst fault oplog set_users log tick users].
    rewrite length_app, Nat.add_1_r. cbn [List.length]. rewrite F1.
    destruct (normal_form_of_valid email' He') as (_ & En').
    rewrite En', Heq. now rewrite lookup_insert_eq. }
  split; [reflexivity |]. split; [exact L |].
  intros other Ho. cbn. now rewrite lookup_insert_ne.
Qed.

Lemma createUser_then_getUserByEmail_witness :
  let w := initial_world [10; 20] no_fault in
  let r := createUser ada_email ada_hash ada_name ada_id w in
  r.1 = Ok (mkUser "ada@example.com" ada_hash ada_name "stu-12345" 10 10) /\
  (getUserByEmail "ADA@EXAMPLE.COM" r.2).1 =
    Ok (Some (mkUser "ada@example.com" ada_hash ada_name "stu-12345" 10 10)).
Proof.
  intros w r.
  destruct (createUser_then_getUserByEmail w ada_email ada_hash ada_name ada_id)
    as (H1 & H2 & _); try reflexivity.
  split; [exact H1 |]. apply H2; reflexivity.
Defined.

Lemma trimStart_all_space (s : string) : all_chars is_space s = true -> trimStart s = "".
Proof.
  induction s as [|c s IH]; cbn; [reflexivity |].
  rewrite andb_true_iff. intros [-> Hs]. auto.
Qed.

Lemma nameRegex_all_space (s : string) :
  all_chars is_space s = true ->
  all_chars (fun c => is_lower c || is_upper c || is_space c
                      || Ascii.eqb c "'" || Ascii.eqb c "-") s = true.
Proof.
  induction s as [|c s IH]; cbn; [reflexivity |].
  rewrite andb_true_iff. intros [-> Hs]. rewrite (IH Hs).
  now rewrite !orb_true_r.
Qed.

(** X5.  The name is validated before it is trimmed: a name made of 2 to 50
    white-space code units passes [validateName], and [createUser] then
    stores a user whose name is empty. *)
Theorem createUser_blank_name (w : World) (email hash name sid : string) :
  let r := createUser email hash name sid w in
  all_chars is_space name = true -> 2 <= len name <= 50 ->
  validateEmail email = Ok tt -> validateStudentId sid = Ok tt ->
  falsy hash = false ->
  fault w (List.length (oplog w)) = None ->
  users w !! normalized email = None ->
  validateName name = Ok tt /\
  exists user, r.1 = Ok user /\ u_name user = "" /\
               users r.2 !! normalized email = Some user.
Proof.
  intros r Hsp Hlen He Hs Hh F Hfree. subst r.
  assert (Hn : validateName name = Ok tt).
  { unfold validateName, nameRegex, one_or_more.
    destruct name as [|c s]; [unfold len in Hlen; cbn in Hlen; lia |]. cbn [falsy negb andb].
    destruct (Z.ltb_spec (len (String c s)) 2); [lia |].
    rewrite Z.gtb_ltb. destruct (Z.ltb_spec 50 (len (String c s))); [lia |].
    cbn [orb]. now rewrite (nameRegex_all_space _ Hsp). }
  split; [exact Hn |].
  rewrite (createUser_valid _ _ _ _ _ He Hn Hs Hh). cbv zeta. rewrite F, Hfree.
  eexists. split; [reflexivity |]. split.
  - cbn. unfold trim. now rewrite (trimStart_all_space _ Hsp).
  - cbn. apply lookup_insert_eq.
Qed.

Lemma createUser_blank_name_witness :
  let w := initial_world [10] no_fault in
  exists user,
    (createUser ada_email ada_hash "   " ada_id w).1 = Ok user /\ u_name user = "".
Proof.
  intros w.
  destruct (createUser_blank_name w ada_email ada_hash "   " ada_id)
    as (_ & user & H1 & H2 & _); try reflexivity.
  - vm_compute. split; discriminate.
  - exists user. split; assumption.
Defined.

(** ** lib/db: enrollments *)

Lemma filter_email_app (v : string) (l1 l2 : list Enrollment) :
  List.filter (fun e => String.eqb (e_email e) v) (l1 ++ l2) =
  List.filter (fun e => String.eqb (e_email e) v) l1 ++
  List.filter (fun e => String.eqb (e_email e) v) l2.
Proof. apply List.filter_app. Qed.

(** X6.  [enrollInClass] sends exactly one request, a put conditioned on the
    absence of the new id.  Either it returns, and the table is the old table
    with one active record of the normalized email added at the end, or it
    throws one of its two errors and the table is as before.  The users table
    is never touched and the records stored under any other email are the
    same afterwards. *)
Theorem enrollInClass_only_appends (w : World) (email : string) (cn : ClassName)
    (cid : string) :
  let i := enrollment_id email cid (clock w (S (ticks w))) in
  let item := mkEnrollment i (normalized email) cn cid (clock w (ticks w)) active None in
  let r := enrollInClass email cn cid w in
  oplog r.2 = oplog w ++ [PutEnrollment i true] /\
  users r.2 = users w /\
  ((r.1 = Ok tt /\ enrollments r.2 = enrollments w ++ [item] /\
    ~ In i (List.map e_id (enrollments w))) \/
   ((r.1 = Throw (Error "User is already enrolled in this class") \/
     r.1 = Throw (Error "Failed to enroll in class")) /\
    enrollments r.2 = enrollments w)) /\
  (forall other, other <> normalized email ->
     List.filter (fun e => String.eqb (e_email e) other) (enrollments r.2) =
     List.filter (fun e => String.eqb (e_email e) other) (enrollments w)).
Proof.
  cbv zeta. rewrite enrollInClass_eq. cbv zeta.
  destruct (fault w (List.length (oplog w))) as [nm|].
  - cbn [fst snd]. repeat split; try reflexivity. right. split; [| reflexivity].
    destruct (String.eqb nm "ConditionalCheckFailedException"); auto.
  - destruct (existsb _ (enrollments w)) eqn:E; cbn [fst snd].
    + repeat split; try reflexivity. right. auto.
    + split; [reflexivity |]. split; [reflexivity |].
      cbn [enrollments set_enrollments log tick].
      rewrite (put_item_fresh (mkEnrollment _ _ cn cid _ active None) _ E).
      split.
      * left. split; [reflexivity |]. split; [reflexivity |].
        now apply existsb_has_id_false.
      * intros other Ho. rewrite filter_email_app. cbn.
        destruct (String.eqb_spec (normalized email) other); [congruence |].
        apply app_nil_r.
Qed.

Lemma Forall2_same {A} (P : A -> A -> Prop) (l : list A) :
  (forall x, P x x) -> Forall2 P l l.
Proof. intros H. induction l; constructor; auto. Qed.

Lemma find_none_iff {A} (f : A -> bool) (l : list A) :
  List.find f l = None <-> forall x, In x l -> f x = false.
Proof.
  induction l as [|y t IH]; cbn; [tauto |].
  destruct (f y) eqn:E.
  - split; [discriminate |]. intros H. specialize (H y (or_introl eq_refl)). congruence.
  - rewrite IH. split; [intros H x [<- | Hx]; auto | auto].
Qed.

Lemma found_is_stored (email key : string) (tbl : list Enrollment) (e : Enrollment) :
  List.find (matches_key key) (active_for email tbl) = Some e ->
  In e tbl /\ e_email e = normalized email /\ status e = active /\
  matches_key key e = true.
Proof.
  intros H. apply find_split in H as (a1 & a2 & Ha & Hk).
  assert (Hin : In e (active_for email tbl))
    by (rewrite Ha; apply in_or_app; right; now left).
  apply in_active_for in Hin as (H1 & H2 & H3). auto.
Qed.

(** X7.  What a drop can change.  With distinct ids in the table,
    [unenrollFromClass] keeps the users table, the number and order of the
    enrollment records and, in each record, the id, email, class name, class
    id and enrollment time.  A record is either left as it is or goes from
    active to dropped, and only a record of the caller's normalized email
    that matches the key can do so.  When the call throws, it throws its one
    error and the table is as before. *)
Theorem unenrollFromClass_frame (w : World) (email key : string) :
  let r := unenrollFromClass email key w in
  NoDup (List.map e_id (enrollments w)) ->
  users r.2 = users w /\
  Forall2 (kept_or_dropped email key) (enrollments w) (enrollments r.2) /\
  (forall e, r.1 = Throw e ->
     e = Error "Failed to unenroll from class" /\ enrollments r.2 = enrollments w).
Proof.
  intros r Hnd. subst r. rewrite unenrollFromClass_eq. cbv zeta.
  assert (Same : Forall2 (kept_or_dropped email key) (enrollments w) (enrollments w))
    by (apply Forall2_same; intros x; split; auto).
  destruct (fault w (List.length (oplog w))) as [nm|].
  { cbn. split; [reflexivity |]. split; [exact Same |].
    intros e [= <-]. auto. }
  destruct (List.find _ _) as [e|] eqn:Hfind.
  2:{ cbn. split; [reflexivity |]. split; [exact Same |]. intros e [= <-]. auto. }
  destruct (fault w (S (List.length (oplog w)))) as [nm|].
  { cbn. split; [reflexivity |]. split; [exact Same |]. intros e' [= <-]. auto. }
  cbn [fst snd users enrollments set_enrollments log tick].
  split; [reflexivity |]. split; [| discriminate].
  apply found_is_stored in Hfind as (Hin & He & Hs & Hk).
  destruct (put_item_replaces (dropped_copy e (clock w (ticks w))) e _ Hnd Hin eq_refl)
    as (l1 & l2 & Htbl & ->).
  rewrite Htbl. apply Forall2_app.
  - apply Forall2_same. intros x. split; auto.
  - constructor.
    + split; [reflexivity |]. right. auto.
    + apply Forall2_same. intros x. split; auto.
Qed.

Lemma unenrollFromClass_frame_witness :
  let w1 := (enrollInClass "Student@Example.com" (Name "Web Development 101") "1"
               (initial_world [1000; 1001; 2000] no_fault)).2 in
  let r := unenrollFromClass "Student@Example.com" "Web Development 101" w1 in
  Forall2 (kept_or_dropped "Student@Example.com" "Web Development 101")
    [web_dev_enrollment] (enrollments r.2).
Proof.
  intros w1 r.
  destruct (unenrollFromClass_frame w1 "Student@Example.com" "Web Development 101")
    as (_ & H & _).
  - change (enrollments w1) with [web_dev_enrollment]. apply NoDup_singleton.
  - exact H.
Defined.

(** X8.  A drop is not repeatable.  When the store answers, the ids in the
    table are distinct and exactly one active record of the email matches the
    key, the first [unenrollFromClass] returns and a second one with the same
    arguments throws its error and changes nothing. *)
Theorem unenrollFromClass_twice (w : World) (email key : string) (r : Enrollment) :
  let n := List.length (oplog w) in
  let first := unenrollFromClass email key w in
  let second := unenrollFromClass email key first.2 in
  NoDup (List.map e_id (enrollments w)) ->
  fault w n = None -> fault w (S n) = None ->
  List.find (matches_key key) (active_for email (enrollments w)) = Some r ->
  (forall x, In x (active_for email (enrollments w)) ->
             matches_key key x = true -> x = r) ->
  first.1 = Ok tt /\
  second.1 = Throw (Error "Failed to unenroll from class") /\
  enrollments second.2 = enrollments first.2.
Proof.
  intros n first second Hnd F0 F1 Hfind Huniq. subst second first n.
  rewrite (unenrollFromClass_eq email key w). cbv zeta. rewrite F0, Hfind, F1.
  cbn [fst snd]. split; [reflexivity |].
  apply found_is_stored in Hfind as (Hin & He & Hs & Hk).
  destruct (put_item_replaces (dropped_copy r (clock w (ticks w))) r _ Hnd Hin eq_refl)
    as (l1 & l2 & Htbl & Hput).
  rewrite unenrollFromClass_none; [split; reflexivity |].
  cbn [enrollments set_enrollments log tick fault oplog]. rewrite Hput.
  destruct (fault w (List.length ((_ ++ _) ++ _))); [reflexivity |].
  apply find_none_iff. intros x Hx. apply not_true_is_false. intros Hm.
  apply in_active_for in Hx as (Hxin & Hxe & Hxs).
  assert (Hx0 : In x (enrollments w) -> x = r).
  { intros H0. apply Huniq; [| exact Hm]. apply in_active_for. auto. }
  rewrite Htbl in Hnd, Hx0. rewrite map_app in Hnd. cbn in Hnd.
  apply NoDup_ListNoDup, List.NoDup_remove_2 in Hnd.
  apply in_app_or in Hxin as [Hl | [<- | Hl]].
  - assert (x = r) by (apply Hx0, in_or_app; now left). subst x.
    apply Hnd, in_or_app. left. now apply in_map.
  - discriminate.
  - assert (x = r) by (apply Hx0, in_or_app; right; now right). subst x.
    apply Hnd, in_or_app. right. now apply in_map.
Qed.

Lemma unenrollFromClass_twice_witness :
  let w1 := (enrollInClass "Student@Example.com" (Name "Web Development 101") "1"
               (initial_world [1000; 1001; 2000; 3000] no_fault)).2 in
  let first := unenrollFromClass "Student@Example.com" "1" w1 in
  first.1 = Ok tt /\
  (unenrollFromClass "Student@Example.com" "1" first.2).1 =
    Throw (Error "Failed to unenroll from class").
Proof.
  intros w1 first.
  destruct (unenrollFromClass_twice w1 "Student@Example.com" "1" web_dev_enrollment)
    as (H1 & H2 & _); try reflexivity.
  - change (enrollments w1) with [web_dev_enrollment]. apply NoDup_singleton.
  - change (active_for "Student@Example.com" (enrollments w1))
      with [web_dev_enrollment].
    intros x [<- | []] _. reflexivity.
  - split; assumption.
Defined.

(** ** app/api/enrollments/route: the handlers as a whole *)

Lemma requireAuthentication_some (request : NextRequest) (w : World) :
  no_identity request = false ->
  exists user,
    session request = Some (mkSession (Some user)) /\
    falsy (su_email user) = false /\
    EnrollmentsRoute.requireAuthentication request w = (Ok user, w).
Proof.
  unfold no_identity, EnrollmentsRoute.requireAuthentication.
  destruct (session request) as [[[u|]]|]; try discriminate.
  intros H. exists u. rewrite H. auto.
Qed.

Lemma isAllowed_outcome (identifier : string) (w : World) :
  exists b w1,
    EnrollmentsRoute.apiRateLimiter_isAllowed identifier w = (Ok b, w1) /\
    enrollments w1 = enrollments w /\ users w1 = users w /\
    authAttempts w1 = authAttempts w /\
    oplog w1 = oplog w /\ fault w1 = fault w.
Proof.
  rewrite isAllowed_eq. cbv zeta.
  destruct (attempts (apiRateLimiter w) !! identifier) as [a|];
    [destruct (resetTime a <? clock w (ticks w));
     [| destruct (maxAttempts (apiRateLimiter w) <=? w_count a)] |];
    do 2 eexists; (split; [reflexivity |]); repeat split.
Qed.

Lemma parseRequestBody_json (request : NextRequest) (m : Z) (body : Json) :
  parseRequestBody request m = Ok body -> json request = Some body.
Proof.
  unfold parseRequestBody.
  destruct (content_length request) as [n|];
    [destruct (n >? m) |];
    destruct (json request) as [b|]; try discriminate;
    destruct (is_object b); try discriminate; now intros [= ->].
Qed.

Lemma parse_error_not_auth (request : NextRequest) (m : Z) (e : JsError) :
  parseRequestBody request m = Throw e -> EnrollmentsRoute.is_auth_error e = false.
Proof.
  unfold parseRequestBody.
  destruct (content_length request) as [n|];
    [destruct (n >? m) |];
    destruct (json request) as [[]|]; cbn; intros [= <-]; reflexivity.
Qed.

(** X9.  GET answers 401 or 200 and nothing else.  Without an identity it
    answers 401 and leaves the world alone.  With one it sends two scans and
    answers 200 with the active records of the normalized session email, or
    with the empty list when the store throws on the second scan: a failing
    store is never reported as an error.  No table and no limiter changes. *)
Theorem GET_answers_401_or_200 (w : World) (request : NextRequest) :
  let r := EnrollmentsRoute.GET request w in
  users r.2 = users w /\ enrollments r.2 = enrollments w /\
  apiRateLimiter r.2 = apiRateLimiter w /\
  ((no_identity request = true /\
    r = (Ok (mkResponse 401 (JsonError "Unauthorized")), w)) \/
   (exists user,
      session request = Some (mkSession (Some user)) /\
      falsy (su_email user) = false /\
      r.1 = Ok (mkResponse 200
                  (JsonEnrollments
                     match fault w (S (List.length (oplog w))) with
                     | Some _ => []
                     | None => active_for (su_email user) (enrollments w)
                     end)) /\
      oplog r.2 = oplog w ++ [ScanEnrollments None;
                              ScanEnrollments (Some (normalized (su_email user)))])).
Proof.
  cbv zeta. unfold EnrollmentsRoute.GET, try_catch, bind.
  destruct (no_identity request) eqn:N.
  - rewrite (requireAuthentication_none _ _ N). cbn. repeat split. left. auto.
  - destruct (requireAuthentication_some request w N) as (user & Hs & He & ->).
    rewrite getAllEnrollments_eq, getUserEnrollments_eq. unfold ret.
    cbn [fst snd users enrollments apiRateLimiter log oplog fault].
    rewrite length_app, Nat.add_1_r. cbn [List.length].
    repeat split. right. exists user.
    split; [exact Hs |]. split; [exact He |]. split; [reflexivity |].
    now rewrite <- app_assoc.
Qed.

(** X10.  POST never throws: it always answers, with one of nine status
    codes.  It never touches the users table or the login counters, and the
    only change it can make to the enrollments table is to add, at the end,
    one active record of the normalized session email, which it does exactly
    when it answers 201. *)
Theorem POST_answers_and_only_appends (w : World) (request : NextRequest) :
  let r := EnrollmentsRoute.POST request w in
  exists resp,
    r.1 = Ok resp /\ In (http_status resp) post_statuses /\
    users r.2 = users w /\ authAttempts r.2 = authAttempts w /\
    ((http_status resp <> 201 /\ enrollments r.2 = enrollments w) \/
     (http_status resp = 201 /\
      exists user e,
        session request = Some (mkSession (Some user)) /\
        enrollments r.2 = enrollments w ++ [e] /\
        e_email e = normalized (su_email user) /\ status e = active)).
Proof.
  cbv zeta. unfold EnrollmentsRoute.POST, try_catch, bind, lift, post_statuses.
  destruct (validateMethod request ["POST"]); cbn [negb];
    [| eexists; split; [reflexivity |]; cbn; split; [tauto |];
       do 2 (split; [reflexivity |]); left; split; [discriminate | reflexivity]].
  destruct (validateContentType request "application/json"); cbn [negb];
    [| eexists; split; [reflexivity |]; cbn; split; [tauto |];
       do 2 (split; [reflexivity |]); left; split; [discriminate | reflexivity]].
  destruct (no_identity request) eqn:N.
  { rewrite (requireAuthentication_none _ _ N).
    eexists; split; [reflexivity |]; cbn; split; [tauto |];
      do 2 (split; [reflexivity |]); left; split; [discriminate | reflexivity]. }
  destruct (requireAuthentication_some request w N) as (user & Hs & He & ->).
  destruct (isAllowed_outcome
              ("enrollment-" +:+ su_email user +:+ "-" +:+ getClientIP request) w)
    as (b & w1 & -> & Fe & Fu & Fa & Fo & Ff).
  rewrite <- Fe, <- Fu, <- Fa.
  destruct b; cbn [negb];
    [| eexists; split; [reflexivity |]; cbn; split; [tauto |];
       do 2 (split; [reflexivity |]); left; split; [discriminate | reflexivity]].
  destruct (parseRequestBody request 512) as [body|e] eqn:P.
  2:{ rewrite (parse_error_not_auth _ _ _ P).
      eexists; split; [reflexivity |]; cbn; split; [tauto |];
        do 2 (split; [reflexivity |]); left; split; [discriminate | reflexivity]. }
  destruct (enrollmentSchema body) as [[cid [|]]|];
    [| eexists; split; [reflexivity |]; cbn; split; [tauto |];
       do 2 (split; [reflexivity |]); left; split; [discriminate | reflexivity]
     | eexists; split; [reflexivity |]; cbn; split; [tauto |];
       do 2 (split; [reflexivity |]); left; split; [discriminate | reflexivity]].
  rewrite isUserEnrolledInClass_eq.
  destruct (existsb _ _);
    [eexists; split; [reflexivity |]; cbn; split; [tauto |];
     do 2 (split; [reflexivity |]); left; split; [discriminate | reflexivity] |].
  destruct (EnrollmentsRoute.classNames cid) as [cn|] eqn:C;
    [| eexists; split; [reflexivity |]; cbn; split; [tauto |];
       do 2 (split; [reflexivity |]); left; split; [discriminate | reflexivity]].
  rewrite enrollInClass_eq. cbv zeta.
  destruct (fault _ _) as [nm|].
  { destruct (String.eqb nm "ConditionalCheckFailedException");
      eexists; (split; [reflexivity |]); cbn; (split; [tauto |]);
      do 2 (split; [reflexivity |]); left; (split; [discriminate | reflexivity]). }
  destruct (existsb _ _) eqn:E.
  { eexists; split; [reflexivity |]; cbn; split; [tauto |];
      do 2 (split; [reflexivity |]); left; split; [discriminate | reflexivity]. }
  rewrite getUserEnrollments_eq.
  eexists. split; [reflexivity |]. cbn [http_status createApiResponse fst snd].
  split; [cbn; tauto |]. do 2 (split; [reflexivity |]). right.
  split; [reflexivity |]. exists user. eexists.
  split; [exact Hs |]. split.
  - cbn [enrollments set_enrollments log tick]. apply put_item_fresh. exact E.
  - cbn. auto.
Qed.

(** The class table is an object literal read by key, so a class id that
    names a member of [Object.prototype] is found: the request is answered
    201 and a record is stored whose class name is that member. *)
Example POST_inherited_key_enrolls :
  let r := EnrollmentsRoute.POST (enroll_request "__proto__")
             (initial_world [1000; 1001; 1002] no_fault) in
  (exists resp, r.1 = Ok resp /\ http_status resp = 201) /\
  List.map className (enrollments r.2) = [Member "__proto__"].
Proof. split; [eexists; split |]; vm_compute; reflexivity. Qed.

(** X11.  DELETE never throws: it always answers, with 200, 400, 401 or 500.
    It never consults the limiter and never touches the users table.  With
    distinct ids in the table, it changes the enrollments table only when it
    answers 200.  The body is then a JSON object whose [className] is a
    non-empty string, and the one change is that the first active record of
    the normalized session email whose class id or class name equals that
    string has become its dropped copy, in place. *)
Theorem DELETE_answers_and_only_drops (w : World) (request : NextRequest) :
  let r := EnrollmentsRoute.DELETE request w in
  NoDup (List.map e_id (enrollments w)) ->
  exists resp,
    r.1 = Ok resp /\ In (http_status resp) delete_statuses /\
    users r.2 = users w /\ apiRateLimiter r.2 = apiRateLimiter w /\
    authAttempts r.2 = authAttempts w /\
    ((http_status resp <> 200 /\ enrollments r.2 = enrollments w) \/
     (http_status resp = 200 /\
      exists user body key l1 e l2,
        session request = Some (mkSession (Some user)) /\
        json request = Some body /\
        get_field "className" body = Some (JString key) /\ key <> "" /\
        List.find (matches_key key) (active_for (su_email user) (enrollments w)) =
          Some e /\
        enrollments w = l1 ++ e :: l2 /\
        enrollments r.2 = l1 ++ dropped_copy e (clock w (ticks w)) :: l2 /\
        e_email e = normalized (su_email user) /\ status e = active /\
        matches_key key e = true)).
Proof.
  intros r Hnd. subst r.
  unfold EnrollmentsRoute.DELETE, try_catch, bind, lift, delete_statuses.
  destruct (validateMethod request ["DELETE"]); cbn [negb];
    [| eexists; split; [reflexivity |]; cbn; split; [tauto |];
       do 3 (split; [reflexivity |]); left; split; [discriminate | reflexivity]].
  destruct (validateContentType request "application/json"); cbn [negb];
    [| eexists; split; [reflexivity |]; cbn; split; [tauto |];
       do 3 (split; [reflexivity |]); left; split; [discriminate | reflexivity]].
  destruct (no_identity request) eqn:N.
  { rewrite (requireAuthentication_none _ _ N).
    eexists; split; [reflexivity |]; cbn; split; [tauto |];
      do 3 (split; [reflexivity |]); left; split; [discriminate | reflexivity]. }
  destruct (requireAuthentication_some request w N) as (user & Hs & He & ->).
  destruct (parseRequestBody request 512) as [body|e] eqn:P.
  2:{ rewrite (parse_error_not_auth _ _ _ P).
      eexists; split; [reflexivity |]; cbn; split; [tauto |];
        do 3 (split; [reflexivity |]); left; split; [discriminate | reflexivity]. }
  destruct (get_field "className" body) as [[key|]|] eqn:G;
    [| eexists; split; [reflexivity |]; cbn; split; [tauto |];
       do 3 (split; [reflexivity |]); left; split; [discriminate | reflexivity]
     | eexists; split; [reflexivity |]; cbn; split; [tauto |];
       do 3 (split; [reflexivity |]); left; split; [discriminate | reflexivity]].
  destruct (falsy key) eqn:Fk;
    [eexists; split; [reflexivity |]; cbn; split; [tauto |];
     do 3 (split; [reflexivity |]); left; split; [discriminate | reflexivity] |].
  rewrite unenrollFromClass_eq. cbv zeta.
  destruct (List.find _ _) as [e|] eqn:Hfind;
    [| eexists; split; [reflexivity |]; cbn; split; [tauto |];
       do 3 (split; [reflexivity |]); left; split; [discriminate | reflexivity]].
  destruct (fault w (S _)) as [nm|];
    [eexists; split; [reflexivity |]; cbn; split; [tauto |];
     do 3 (split; [reflexivity |]); left; split; [discriminate | reflexivity] |].
  assert (Hf : List.find (matches_key key)
                 (active_for (su_email user) (enrollments w)) = Some e).
  { destruct (fault w (List.length (oplog w))); [discriminate | exact Hfind]. }
  pose proof Hf as Hfirst.
  apply found_is_stored in Hf as (Hin & Hem & Hst & Hk).
  destruct (put_item_replaces (dropped_copy e (clock w (ticks w))) e _ Hnd Hin eq_refl)
    as (l1 & l2 & Htbl & Hput).
  eexists. split; [reflexivity |]. cbn [http_status createApiResponse fst snd].
  split; [cbn; tauto |]. do 3 (split; [reflexivity |]). right.
  split; [reflexivity |]. exists user, body, key, l1, e, l2.
  split; [exact Hs |]. split; [exact (parseRequestBody_json _ _ _ P) |].
  split; [exact G |]. split; [now apply falsy_false |]. split; [exact Hfirst |].
  split; [exact Htbl |]. split; [| auto].
  cbn [enrollments set_enrollments log tick]. exact Hput.
Qed.

Lemma DELETE_answers_and_only_drops_witness :
  let w1 := (enrollInClass "Student@Example.com" (Name "Web Development 101") "1"
               (initial_world [1000; 1001; 2000] no_fault)).2 in
  let r := EnrollmentsRoute.DELETE (unenroll_request "Web Development 101") w1 in
  exists resp, r.1 = Ok resp /\ In (http_status resp) delete_statuses /\
               apiRateLimiter r.2 = apiRateLimiter w1.
Proof.
  intros w1 r.
  destruct (DELETE_answers_and_only_drops w1 (unenroll_request "Web Development 101"))
    as (resp & H1 & H2 & _ & H4 & _).
  - change (enrollments w1) with [web_dev_enrollment]. apply NoDup_singleton.
  - exists resp. auto.
Defined.

(** X12.  An enroll request over the limit is turned away before anything
    else happens: for a signed-in user whose counter has reached the maximum
    inside its window, POST answers 429 whatever the body holds, and the
    world changes by one reading of the clock only: the body is not parsed
    and the store is not reached. *)
Theorem POST_over_limit_is_429 (w : World) (request : NextRequest)
    (user : SessionUser) (a : Window) :
  validateMethod request ["POST"] = true ->
  validateContentType request "application/json" = true ->
  session request = Some (mkSession (Some user)) ->
  falsy (su_email user) = false ->
  attempts (apiRateLimiter w) !! enrollment_limit_key user request = Some a ->
  clock w (ticks w) <= resetTime a ->
  maxAttempts (apiRateLimiter w) <= w_count a ->
  EnrollmentsRoute.POST request w =
  (Ok (mkResponse 429
         (ApiResponse false None None
            (Some (Text "Too many enrollment attempts. Please try again later.")))),
   tick w).
Proof.
  intros Hm Hc Hs He Ha Ht Hmax.
  unfold EnrollmentsRoute.POST, try_catch, bind, lift,
    EnrollmentsRoute.requireAuthentication.
  rewrite Hm, Hc, Hs, He. cbn [negb ret].
  fold (enrollment_limit_key user request).
  rewrite isAllowed_eq. cbv zeta. rewrite Ha.
  destruct (Z.ltb_spec (resetTime a) (clock w (ticks w))); [lia |].
  destruct (Z.leb_spec (maxAttempts (apiRateLimiter w)) (w_count a)); [| lia].
  reflexivity.
Qed.

Lemma POST_over_limit_is_429_witness :
  let w :=
    set_apiRateLimiter
      (mkRateLimiter 100 60000
         {[ enrollment_limit_key student (enroll_request "1") := mkWindow 100 5000 ]})
      (initial_world [1000] no_fault) in
  (EnrollmentsRoute.POST (enroll_request "1") w).1 =
  Ok (mkResponse 429
        (ApiResponse false None None
           (Some (Text "Too many enrollment attempts. Please try again later.")))).
Proof.
  intros w.
  rewrite (POST_over_limit_is_429 w (enroll_request "1") student (mkWindow 100 5000));
    first [reflexivity | vm_compute; discriminate].
Defined.

Lemma parseRequestBody_throws (request : NextRequest) (m : Z) :
  (exists e, parseRequestBody request m = Throw e) <->
  (exists n, content_length request = Some n /\ m < n) \/
  json request = None \/ json request = Some JPrimitive.
Proof.
  unfold parseRequestBody.
  destruct (content_length request) as [n|].
  - rewrite Z.gtb_ltb. destruct (Z.ltb_spec m n).
    + split; [intros _; left; eauto | eauto].
    + destruct (json request) as [[]|]; cbn; split; eauto;
        try (intros [? [=]]);
        intros [(n' & [= <-] & Hn) | [[=] | [=]]]; lia.
  - destruct (json request) as [[]|]; cbn; split; eauto;
      try (intros [? [=]]);
      intros [(n' & [=] & Hn) | [[=] | [=]]].
Qed.

(** X13.  A body POST cannot use is reported as a server error.  For a
    signed-in user the limiter lets through, a request whose declared length
    exceeds 512, whose body is not JSON or whose JSON is not an object or
    array is answered 500 with the general message, after the limiter has
    counted it and without any request to the store. *)
Theorem POST_unusable_body_is_500 (w : World) (request : NextRequest)
    (user : SessionUser) :
  let limited :=
    EnrollmentsRoute.apiRateLimiter_isAllowed (enrollment_limit_key user request) w in
  validateMethod request ["POST"] = true ->
  validateContentType request "application/json" = true ->
  session request = Some (mkSession (Some user)) ->
  falsy (su_email user) = false ->
  limited.1 = Ok true ->
  (exists n, content_length request = Some n /\ 512 < n) \/
  json request = None \/ json request = Some JPrimitive ->
  EnrollmentsRoute.POST request w =
  (Ok (mkResponse 500
         (ApiResponse false None None
            (Some (Text "Enrollment failed. Please try again.")))),
   limited.2) /\
  oplog limited.2 = oplog w /\ enrollments limited.2 = enrollments w.
Proof.
  intros limited Hm Hc Hs He Hl Hbody. subst limited.
  apply parseRequestBody_throws in Hbody as [e P].
  unfold EnrollmentsRoute.POST, try_catch, bind, lift,
    EnrollmentsRoute.requireAuthentication.
  rewrite Hm, Hc, Hs, He. cbn [negb ret].
  fold (enrollment_limit_key user request).
  destruct (isAllowed_outcome (enrollment_limit_key user request) w)
    as (b & w1 & E & Fe & _ & _ & Fo & _).
  rewrite E in *. cbn [fst snd] in *. injection Hl as ->. cbn [negb].
  rewrite P, (parse_error_not_auth _ _ _ P). auto.
Qed.

Lemma POST_unusable_body_is_500_witness :
  let request :=
    mkRequest "POST" (Some "application/json") (Some 4096) None None None None
      (Some (JObject [("classId", JString "1"); ("action", JString "enroll")]))
      (Some (mkSession (Some student))) in
  (EnrollmentsRoute.POST request (initial_world [1000] no_fault)).1 =
  Ok (mkResponse 500
        (ApiResponse false None None
           (Some (Text "Enrollment failed. Please try again.")))).
Proof.
  intros request.
  assert (Hbody : (exists n, content_length request = Some n /\ 512 < n) \/
                  json request = None \/ json request = Some JPrimitive)
    by (left; exists 4096; split; reflexivity).
  destruct (POST_unusable_body_is_500 (initial_world [1000] no_fault) request student
              eq_refl eq_refl eq_refl eq_refl eq_refl Hbody) as (H & _).
  rewrite H. reflexivity.
Defined.

(** ** lib/api-utils: the limiter over many calls *)

Lemma isAllowed_times_in_window (m : nat) :
  forall (w : World) (identifier : string) (a : Window),
    attempts (apiRateLimiter w) !! identifier = Some a ->
    (forall k, (k < m)%nat -> clock w (k + ticks w) <= resetTime a) ->
    (isAllowed_times m identifier w).1 =
    Ok (List.map (fun i : nat => w_count a + Z.of_nat i <? maxAttempts (apiRateLimiter w))
          (seq 0 m)).
Proof.
  induction m as [|m IH]; intros w identifier a Ha Hw; [reflexivity |].
  cbn [isAllowed_times]. unfold bind at 1. rewrite isAllowed_eq. cbv zeta.
  rewrite Ha.
  destruct (Z.ltb_spec (resetTime a) (clock w (ticks w))) as [H|_].
  { specialize (Hw 0%nat ltac:(lia)). cbn in Hw. lia. }
  assert (Hnext : forall w', clock w' = clock w -> ticks w' = S (ticks w) ->
            forall k, (k < m)%nat -> clock w' (k + ticks w') <= resetTime a).
  { intros w' Hc Ht k Hk. rewrite Hc, Ht, Nat.add_succ_r. apply (Hw (S k)). lia. }
  destruct (Z.leb_spec (maxAttempts (apiRateLimiter w)) (w_count a)) as [Hfull|Hroom].
  - unfold bind. specialize (IH (tick w) identifier a Ha (Hnext (tick w) eq_refl eq_refl)).
    destruct (isAllowed_times m identifier (tick w)) as [o w']. cbn [fst] in IH.
    rewrite IH. cbn [fst ret seq List.map].
    f_equal. f_equal.
    + symmetry. apply Z.ltb_ge. lia.
    + rewrite <- seq_shift, List.map_map. apply List.map_ext. intros i.
      cbn [apiRateLimiter tick].
      transitivity false; [apply Z.ltb_ge | symmetry; apply Z.ltb_ge]; lia.
  - unfold bind.
    set (w1 := set_apiRateLimiter _ (tick w)).
    assert (Ha1 : attempts (apiRateLimiter w1) !! identifier =
                  Some (mkWindow (w_count a + 1) (resetTime a)))
      by (cbn; apply lookup_insert_eq).
    specialize (IH w1 identifier _ Ha1 (Hnext w1 eq_refl eq_refl)).
    destruct (isAllowed_times m identifier w1) as [o w']. cbn [fst] in IH.
    rewrite IH. cbn [fst ret seq List.map]. f_equal. f_equal.
    + symmetry. apply Z.ltb_lt. lia.
    + rewrite <- seq_shift, List.map_map. apply List.map_ext. intros i.
      cbn [w_count apiRateLimiter set_apiRateLimiter w1 maxAttempts].
      f_equal. lia.
Qed.

(** X14.  The fixed window of [RateLimiter.isAllowed], over any number of
    calls.  For an identifier without an entry and calls that all come no
    later than windowMs after the first, the first call is let through, and
    call number k (counted from 0) after it is let through exactly when
    k < maxAttempts: the limiter lets through the first maxAttempts calls of
    the window (one call when maxAttempts is below 1) and refuses the rest. *)
Theorem isAllowed_first_maxAttempts (n : nat) (w : World) (identifier : string) :
  attempts (apiRateLimiter w) !! identifier = None ->
  (forall k, (k < n)%nat ->
             clock w (k + ticks w) <= clock w (ticks w) + windowMs (apiRateLimiter w)) ->
  (isAllowed_times n identifier w).1 =
  Ok (List.map (fun k : nat => (k =? 0)%nat || (Z.of_nat k <? maxAttempts (apiRateLimiter w)))
        (seq 0 n)).
Proof.
  intros Hnone Hw. destruct n as [|m]; [reflexivity |].
  cbn [isAllowed_times]. unfold bind at 1. rewrite isAllowed_eq. cbv zeta.
  rewrite Hnone. unfold bind.
  set (w1 := set_apiRateLimiter _ (tick w)).
  assert (Ha1 : attempts (apiRateLimiter w1) !! identifier =
                Some (mkWindow 1 (clock w (ticks w) + windowMs (apiRateLimiter w))))
    by (cbn; apply lookup_insert_eq).
  assert (Hw1 : forall k, (k < m)%nat ->
            clock w1 (k + ticks w1) <=
            resetTime (mkWindow 1 (clock w (ticks w) + windowMs (apiRateLimiter w)))).
  { intros k Hk. cbn [w1 clock ticks set_apiRateLimiter tick resetTime].
    rewrite Nat.add_succ_r. apply (Hw (S k)). lia. }
  pose proof (isAllowed_times_in_window m w1 identifier _ Ha1 Hw1) as IH.
  destruct (isAllowed_times m identifier w1) as [o w']. cbn [fst] in IH.
  rewrite IH. cbn [fst ret seq List.map]. f_equal. f_equal.
  rewrite <- seq_shift, List.map_map. apply List.map_ext. intros i.
  cbn [w_count apiRateLimiter set_apiRateLimiter w1 maxAttempts Nat.eqb orb].
  f_equal. lia.
Qed.

Lemma isAllowed_first_maxAttempts_witness :
  let w :=
    set_apiRateLimiter (mkRateLimiter 3 60000 ∅)
      (initial_world [1000; 2000; 3000; 4000; 61000] no_fault) in
  (isAllowed_times 5 "10.0.0.1" w).1 = Ok [true; true; true; false; false].
Proof.
  intros w.
  rewrite (isAllowed_first_maxAttempts 5 w "10.0.0.1"); [reflexivity | reflexivity |].
  intros k Hk.
  destruct k as [|[|[|[|[|k]]]]]; try (vm_compute; discriminate). lia.
Defined.

(** X15.  [getRemainingAttempts] foretells [isAllowed].  For a limiter with a
    positive maximum, a call of [isAllowed] is let through exactly when
    [getRemainingAttempts], asked at the same instant, is positive.  After
    [reset] the identifier has its full allowance again and
    [getResetTime] answers 0. *)
Theorem getRemainingAttempts_foretells (w : World) (identifier : string) :
  0 < maxAttempts (apiRateLimiter w) ->
  (exists left,
     (getRemainingAttempts apiRateLimiter identifier w).1 = Ok left /\
     ((EnrollmentsRoute.apiRateLimiter_isAllowed identifier w).1 = Ok true <->
      0 < left)) /\
  (let w' := (reset apiRateLimiter set_apiRateLimiter identifier w).2 in
   (getRemainingAttempts apiRateLimiter identifier w').1 =
     Ok (maxAttempts (apiRateLimiter w)) /\
   (getResetTime apiRateLimiter identifier w').1 = Ok 0).
Proof.
  intros Hmax. split.
  - rewrite isAllowed_eq. unfold getRemainingAttempts, bind, Date_now, ret. cbv zeta.
    destruct (attempts (apiRateLimiter w) !! identifier) as [a|].
    + rewrite Z.gtb_ltb.
      destruct (Z.ltb_spec (resetTime a) (clock w (ticks w))).
      * eexists. split; [reflexivity |]. cbn. split; auto.
      * eexists. split; [reflexivity |].
        destruct (Z.leb_spec (maxAttempts (apiRateLimiter w)) (w_count a));
          cbn; split; intros H'; try discriminate; try reflexivity; lia.
    + eexists. split; [reflexivity |]. cbn. split; auto.
  - unfold reset, getRemainingAttempts, getResetTime. cbn.
    now rewrite lookup_delete_eq.
Qed.

Lemma getRemainingAttempts_foretells_witness :
  let w :=
    set_apiRateLimiter (mkRateLimiter 2 60000 {[ "10.0.0.1" := mkWindow 2 5000 ]})
      (initial_world [1000] no_fault) in
  (getRemainingAttempts apiRateLimiter "10.0.0.1" w).1 = Ok 0 /\
  (EnrollmentsRoute.apiRateLimiter_isAllowed "10.0.0.1" w).1 <> Ok true.
Proof.
  intros w.
  destruct (getRemainingAttempts_foretells w "10.0.0.1") as ((left & H1 & H2) & _);
    [reflexivity |].
  assert (E : (getRemainingAttempts apiRateLimiter "10.0.0.1" w).1 = Ok 0)
    by reflexivity.
  split; [exact E |].
  rewrite E in H1. injection H1 as <-. intros H. apply H2 in H. lia.
Defined.

(** ** lib/auth: the login limiter while locked *)

Lemma checkRateLimit_times_locked (n : nat) :
  forall (w : World) (identifier : string) (maxA win : Z) (a : Attempt),
    authAttempts w !! identifier = Some a ->
    maxA <= count a ->
    (forall k, (k < n)%nat -> clock w (k + ticks w) - lastAttempt a <= win) ->
    exists w',
      checkRateLimit_times n identifier maxA win w = (Ok (List.repeat false n), w') /\
      authAttempts w' = authAttempts w /\ clock w' = clock w /\
      ticks w' = (n + ticks w)%nat.
Proof.
  induction n as [|n IH]; intros w identifier maxA win a Ha Hfull Hw.
  - exists w. auto.
  - cbn [checkRateLimit_times]. unfold bind at 1.
    rewrite (checkRateLimit_refuse _ _ _ _ a Ha); [| | exact Hfull].
    2:{ apply (Hw 0%nat). lia. }
    unfold bind.
    destruct (IH (tick w) identifier maxA win a Ha Hfull) as (w' & E & H1 & H2 & H3).
    { intros k Hk. cbn [clock ticks tick]. rewrite Nat.add_succ_r.
      apply (Hw (S k)). lia. }
    rewrite E. exists w'. cbn [List.repeat ret].
    split; [reflexivity |]. split; [exact H1 |]. split; [exact H2 |].
    rewrite H3. cbn. lia.
Qed.

(** X16.  Refused logins do not prolong the lock of [checkRateLimit].  Once
    the count of an identifier has reached the maximum, any number of calls
    made within windowMs of [lastAttempt] are all refused and leave the
    counters exactly as they were; the first call made more than windowMs
    after [lastAttempt] is let through and starts over at count 1. *)
Theorem checkRateLimit_lock_is_not_prolonged (n : nat) (w : World)
    (identifier : string) (maxA win : Z) (a : Attempt) :
  let r := checkRateLimit_times n identifier maxA win w in
  let later := clock w (n + ticks w) in
  authAttempts w !! identifier = Some a ->
  maxA <= count a ->
  (forall k, (k < n)%nat -> clock w (k + ticks w) - lastAttempt a <= win) ->
  win < later - lastAttempt a ->
  r.1 = Ok (List.repeat false n) /\
  authAttempts r.2 = authAttempts w /\
  (checkRateLimit identifier maxA win r.2).1 = Ok true /\
  authAttempts (checkRateLimit identifier maxA win r.2).2 !! identifier =
    Some (mkAttempt 1 later).
Proof.
  intros r later Ha Hfull Hw Hlater. subst r later.
  destruct (checkRateLimit_times_locked n w identifier maxA win a Ha Hfull Hw)
    as (w' & E & H1 & H2 & H3).
  rewrite E. cbn [fst snd]. split; [reflexivity |]. split; [exact H1 |].
  rewrite checkRateLimit_eq. cbv zeta. rewrite H1, Ha, H2, H3.
  destruct (Z.ltb_spec win (clock w (n + ticks w) - lastAttempt a)); [| lia].
  cbn. split; [reflexivity | apply lookup_insert_eq].
Qed.

Lemma checkRateLimit_lock_is_not_prolonged_witness :
  let w :=
    set_authAttempts {[ "ada@example.com" := mkAttempt 5 1000 ]}
      (initial_world [2000; 3000; 4000; 901001] no_fault) in
  (checkRateLimit_times 3 "ada@example.com" 5 900000 w).1 = Ok [false; false; false] /\
  (checkRateLimit "ada@example.com" 5 900000
     (checkRateLimit_times 3 "ada@example.com" 5 900000 w).2).1 = Ok true.
Proof.
  intros w.
  destruct (checkRateLimit_lock_is_not_prolonged 3 w "ada@example.com" 5 900000
              (mkAttempt 5 1000)) as (H1 & _ & H3 & _).
  - reflexivity.
  - vm_compute. discriminate.
  - intros k Hk. destruct k as [|[|[|k]]]; try (vm_compute; discriminate). lia.
  - reflexivity.
  - split; assumption.
Defined.

(** ** lib/auth: what the password report says *)

(** X17.  The report of [validatePasswordStrength] always says something:
    the feedback list is never empty, and the score lies between 0 and 6.
    The praise Strong password! is given exactly to a password of at least
    8 characters with a lowercase letter, an uppercase letter, a digit and a
    symbol, free of both penalised patterns; it then stands alone in the
    feedback, the password is valid and its score is at least 5. *)
Theorem validatePasswordStrength_feedback (p : string) :
  let r := validatePasswordStrength p in
  feedback r <> [] /\
  0 <= score r <= 6 /\
  (In "Strong password!" (feedback r) <->
     8 <= len p /\
     test_class is_lower p = true /\ test_class is_upper p = true /\
     test_class is_digit p = true /\ test_class is_symbol p = true /\
     search repeat_at_start p = false /\ search weak_at_start p = false) /\
  (In "Strong password!" (feedback r) ->
     feedback r = ["Strong password!"] /\ isValid r = true /\ 5 <= score r).
Proof.
  destruct p as [|c p].
  { cbn. split; [discriminate |]. split; [lia |]. split; [split |].
    - intros [H | []]. discriminate H.
    - intros (H & _). unfold len in H. cbn in H. lia.
    - intros [H | []]. discriminate H. }
  cbv beta delta [validatePasswordStrength].
  change (falsy (String c p)) with false. cbv iota.
  generalize (String c p). intros q.
  rewrite !Z.geb_leb.
  generalize (test_class is_lower q), (test_class is_upper q),
    (test_class is_digit q), (test_class is_symbol q),
    (search repeat_at_start q), (search weak_at_start q).
  destruct (Z.ltb_spec (len q) 8), (Z.leb_spec 8 (len q)),
    (Z.leb_spec 12 (len q)); try lia;
    intros [] [] [] [] [] [] r; vm_compute in (value of r); subst r;
    cbn [feedback score isValid In];
    (split; [discriminate |]); (split; [lia |]);
    (split; [split; [intros Hin | intros (? & ? & ? & ? & ? & ? & ?)] | intros Hin]);
    try discriminate; try lia;
    repeat (destruct Hin as [Hin | Hin]; [discriminate Hin |]);
    try contradiction;
    repeat split; try reflexivity; try assumption; try lia; auto.
Qed.

(** ** lib/db: enrolling and dropping again *)

Lemma find_app_none {A} (f : A -> bool) (l l' : list A) :
  List.find f l = None -> List.find f (l ++ l') = List.find f l'.
Proof.
  induction l as [|x l IH]; [reflexivity |]. cbn.
  destruct (f x); [discriminate | exact IH].
Qed.

(** X18.  Dropping undoes enrolling for the listing, not for the table.
    When the store answers every request, the new id is free and the student
    has no active enrolment that the key (the class id or the class name)
    already matches, [enrollInClass] followed by [unenrollFromClass] both
    succeed, the student's active enrolments are again what they were,
    [isUserEnrolledInClass] answers what the old table makes it answer, and
    the table has grown by one record, the dropped one. *)
Theorem enroll_then_drop_restores_listing (w : World) (email cn cid key : string) :
  let w1 := (enrollInClass email (Name cn) cid w).2 in
  let w2 := (unenrollFromClass email key w1).2 in
  (forall k, fault w k = None) ->
  existsb (has_id (enrollment_id email cid (clock w (S (ticks w))))) (enrollments w)
    = false ->
  key = cid \/ key = cn ->
  List.find (matches_key key) (active_for email (enrollments w)) = None ->
  (enrollInClass email (Name cn) cid w).1 = Ok tt /\
  (unenrollFromClass email key w1).1 = Ok tt /\
  active_for email (enrollments w2) = active_for email (enrollments w) /\
  (isUserEnrolledInClass email cid w2).1 =
    Ok (existsb (fun e => String.eqb (classId e) cid) (active_for email (enrollments w))) /\
  (exists d, enrollments w2 = enrollments w ++ [d] /\ status d = dropped /\
             classId d = cid /\ className d = Name cn /\ e_email d = normalized email).
Proof.
  intros w1 w2 Hf Hid Hkey Hnone. subst w2 w1.
  rewrite enrollInClass_eq. cbv zeta. rewrite Hf, Hid. cbn [fst snd].
  set (item := mkEnrollment _ _ (Name cn) cid _ active None).
  rewrite (put_item_fresh item _ Hid).
  rewrite unenrollFromClass_eq. cbv zeta.
  cbn [fault set_enrollments log tick enrollments oplog clock ticks].
  rewrite !Hf.
  assert (Hitem : active_for email [item] = [item]).
  { unfold active_for. cbn. now rewrite String.eqb_refl. }
  assert (Hm : matches_key key item = true).
  { unfold matches_key. cbn.
    destruct Hkey as [-> | ->]; rewrite String.eqb_refl;
      [reflexivity | apply orb_true_r]. }
  rewrite active_for_app, Hitem, (find_app_none _ _ _ Hnone).
  cbn [List.find]. rewrite Hm. cbn [fst snd enrollments set_enrollments].
  set (d := dropped_copy item _).
  rewrite (put_item_at d item (enrollments w) [] Hid eq_refl).
  split; [reflexivity |]. split; [reflexivity |].
  assert (Hd : active_for email [d] = []).
  { unfold active_for. cbn. now rewrite String.eqb_refl. }
  split; [| split].
  - now rewrite active_for_app, Hd, app_nil_r.
  - rewrite isUserEnrolledInClass_eq.
    cbn [fst fault set_enrollments log tick enrollments oplog]. rewrite Hf.
    now rewrite active_for_app, Hd, app_nil_r.
  - exists d. repeat split; reflexivity.
Qed.

Lemma enroll_then_drop_restores_listing_witness :
  let w := initial_world [1000; 2000; 3000] no_fault in
  let w1 := (enrollInClass "Ada@Example.com" (Name "Web Development") "1" w).2 in
  let w2 := (unenrollFromClass "Ada@Example.com" "Web Development" w1).2 in
  active_for "Ada@Example.com" (enrollments w2) = [] /\
  List.length (enrollments w2) = 1%nat.
Proof.
  intros w w1 w2.
  destruct (enroll_then_drop_restores_listing w "Ada@Example.com" "Web Development"
              "1" "Web Development") as (_ & _ & H3 & _ & (d & H5 & _)).
  - reflexivity.
  - reflexivity.
  - right. reflexivity.
  - reflexivity.
  - split; [exact H3 |]. fold w1 w2 in H5 |- *. subst w2 w1.
    cbv zeta in H5. rewrite H5. reflexivity.
Defined.

(** ** lib/validations: escaping *)

Lemma append_assoc (a b c : string) : (a +:+ b) +:+ c = a +:+ (b +:+ c).
Proof. induction a as [|x a IH]; cbn; [reflexivity | now rewrite IH]. Qed.

Lemma replace_char_app (c : ascii) (rep a b : string) :
  replace_char c rep (a +:+ b) = replace_char c rep a +:+ replace_char c rep b.
Proof.
  induction a as [|x a IH]; cbn; [reflexivity |].
  now rewrite IH, append_assoc.
Qed.

Lemma sanitizeHtml_app (a b : string) :
  sanitizeHtml (a +:+ b) = sanitizeHtml a +:+ sanitizeHtml b.
Proof. unfold sanitizeHtml. now rewrite !replace_char_app. Qed.

Lemma sanitizeHtml_cons (c : ascii) (s : string) :
  sanitizeHtml (String c s) = sanitizeHtml (String c "") +:+ sanitizeHtml s.
Proof. apply (sanitizeHtml_app (String c "") s). Qed.

Lemma sanitizeHtml_char (c : ascii) :
  html_plain (sanitizeHtml (String c "")) = true /\
  (html_special c = false -> sanitizeHtml (String c "") = String c "") /\
  1 <= len (sanitizeHtml (String c "")) <= 6.
Proof.
  pose proof (forall_ascii (fun c =>
            html_plain (sanitizeHtml (String c "")) &&
            (html_special c || String.eqb (sanitizeHtml (String c "")) (String c "")) &&
            (1 <=? len (sanitizeHtml (String c ""))) &&
            (len (sanitizeHtml (String c "")) <=? 6)) eq_refl c) as H.
  cbv beta in H. apply andb_prop in H as (H & H4). apply andb_prop in H as (H & H3).
  apply andb_prop in H as (H1 & H2).
  split; [exact H1 |]. split; [| lia].
  intros Hs. rewrite Hs in H2. now apply String.eqb_eq in H2.
Qed.

Lemma len_app (a b : string) : len (a +:+ b) = len a + len b.
Proof.
  unfold len. induction a as [|x a IH]; cbn [String.append String.length]; lia.
Qed.

Lemma sanitizeHtml_plain (s : string) : html_plain (sanitizeHtml s) = true.
Proof.
  induction s as [|c s IH]; [reflexivity |].
  pose proof (proj1 (sanitizeHtml_char c)) as Hc.
  rewrite sanitizeHtml_cons. unfold html_plain in *.
  now rewrite all_chars_app, IH, Hc.
Qed.

Lemma sanitizeHtml_fixes_plain (s : string) :
  html_plain s = true -> sanitizeHtml s = s.
Proof.
  induction s as [|c s IH]; [reflexivity |].
  unfold html_plain. cbn [all_chars]. intros H. apply andb_prop in H as (Hc & Hs).
  rewrite sanitizeHtml_cons, (IH Hs).
  rewrite (proj1 (proj2 (sanitizeHtml_char c))); [reflexivity |].
  now destruct (html_special c).
Qed.

(** X19.  [sanitizeHtml] leaves none of the five code units it replaces
    (angle brackets, both quotes, the slash) in its result and is the
    identity on a text without them, so sanitising twice is sanitising once.
    It works code unit by code unit: the result of a concatenation is the
    concatenation of the results, and is 1 to 6 times as long as the
    input. *)
Theorem sanitizeHtml_escapes (s t : string) :
  html_plain (sanitizeHtml s) = true /\
  (html_plain s = true <-> sanitizeHtml s = s) /\
  sanitizeHtml (sanitizeHtml s) = sanitizeHtml s /\
  sanitizeHtml (s +:+ t) = sanitizeHtml s +:+ sanitizeHtml t /\
  len s <= len (sanitizeHtml s) <= 6 * len s.
Proof.
  split; [apply sanitizeHtml_plain |]. split; [split |].
  - apply sanitizeHtml_fixes_plain.
  - intros H. rewrite <- H. apply sanitizeHtml_plain.
  - split; [apply sanitizeHtml_fixes_plain, sanitizeHtml_plain |].
    split; [apply sanitizeHtml_app |].
    induction s as [|c s IH]; [unfold len; cbn; lia |].
    rewrite sanitizeHtml_cons, len_app.
    pose proof (proj2 (proj2 (sanitizeHtml_char c))) as Hc.
    change (len (String c s)) with (Z.of_nat (S (String.length s))).
    unfold len in IH at 1 4. lia.
Qed.

(** ** Logging in *)

Section LoginFacts.

Context {Credentials : Type}.
Variable parse : Credentials -> option (string * string).
Variable bhash : string -> Z -> M string.
Variable bcompare : string -> string -> M bool.

Lemma verifyPassword_outcome (password hashed : string) (w : World) :
  exists b, (verifyPassword bcompare password hashed w).1 = Ok b /\
    (b = true ->
     falsy password = false /\ falsy hashed = false /\
     verifyPassword bcompare password hashed w = bcompare password hashed w).
Proof.
  unfold verifyPassword, try_catch, bind, ret.
  destruct (falsy password); [exists false; split; [reflexivity | discriminate] |].
  destruct (falsy hashed); [exists false; split; [reflexivity | discriminate] |].
  destruct (bcompare password hashed w) as [[b | e] w'] eqn:E; cbn.
  - exists b. auto.
  - exists false. split; [reflexivity | discriminate].
Qed.

(** X20.  A locked login is refused before the password is looked at.  When
    the parsed email has used up its 5 attempts and the last one is at most
    15 minutes old, [authorize] answers null whatever the password, sends
    nothing to the store, does not call bcrypt, and leaves the counters as
    they are: the world changes by one reading of the clock. *)
Theorem authorize_locked_is_null (c : Credentials) (w : World)
    (email password : string) (a : Attempt) :
  parse c = Some (email, password) ->
  authAttempts w !! email = Some a ->
  5 <= count a ->
  clock w (ticks w) - lastAttempt a <= 900000 ->
  authorize parse bcompare c w = (Ok None, tick w).
Proof.
  intros Hp Ha Hc Ht. unfold authorize, try_catch, bind. rewrite Hp.
  rewrite (checkRateLimit_refuse email 5 (15 * 60 * 1000) w a Ha); [reflexivity | | exact Hc].
  cbn. lia.
Qed.

(** X21.  [authorize] grants only on a bcrypt match, and a grant clears the
    counter.  It never throws; when it answers a user, the credentials
    parsed, the store holds a user under the normalised email whose fields
    are the ones returned, bcrypt accepted the password against the stored
    hash, and the email has no login counter left. *)
Theorem authorize_grants_on_match (c : Credentials) (w : World) :
  (exists r, (authorize parse bcompare c w).1 = Ok r) /\
  (forall u, (authorize parse bcompare c w).1 = Ok (Some u) ->
     exists email password stored w1,
       parse c = Some (email, password) /\
       users w !! normalized email = Some stored /\
       (bcompare password (passwordHash stored) w1).1 = Ok true /\
       u = mkAuthorizedUser (u_email stored) (u_email stored) (u_name stored)
             (studentId stored) /\
       authAttempts (authorize parse bcompare c w).2 !! email = None).
Proof.
  split.
  - unfold authorize, try_catch.
    match goal with |- context [let (_, _) := ?m in _] => destruct m as [[r | e] w'] end;
      eexists; reflexivity.
  - intros u. unfold authorize, try_catch, bind.
    destruct (parse c) as [[email password]|]; [| discriminate].
    destruct (checkRateLimit email 5 (15 * 60 * 1000) w) as [[[] | e] w1] eqn:E1;
      [| discriminate | discriminate].
    cbn [negb]. rewrite getUserByEmail_eq.
    assert (Hu : users w1 = users w).
    { rewrite checkRateLimit_eq in E1. cbv zeta in E1.
      destruct (authAttempts w !! email) as [a|];
        [destruct (_ <? _); [| destruct (_ <=? _)] |];
        try discriminate E1; injection E1 as <-; reflexivity. }
    destruct (validateEmail email); [| discriminate].
    destruct (fault w1 (List.length (oplog w1))); [discriminate |].
    rewrite Hu. destruct (users w !! normalized email) as [stored|] eqn:Es; [| discriminate].
    set (w2 := log _ w1).
    destruct (verifyPassword_outcome password (passwordHash stored) w2) as (b & Hb & Hv).
    destruct (verifyPassword bcompare password (passwordHash stored) w2) as [[b' | e] w3] eqn:E3;
      [| discriminate].
    cbn in Hb. injection Hb as ->.
    destruct b; [| discriminate]. cbn. intros H. injection H as <-.
    destruct (Hv eq_refl) as (_ & _ & Hv').
    exists email, password, stored, w2. split; [reflexivity |]. split; [exact Es |].
    split; [now rewrite <- Hv' |]. split; [reflexivity |].
    apply lookup_delete_eq.
Qed.

(** X22.  [hashPassword] hands to bcrypt exactly the passwords of 8 to 100
    code units, with 10 rounds, and fails with one and the same error
    otherwise.  A password [validatePasswordStrength] holds valid is never
    turned away for being short; only its length above 100 can stop it. *)
Theorem hashPassword_gate (password : string) (w : World) :
  ((len password < 8 \/ 100 < len password) ->
   hashPassword bhash password w = (Throw hash_failure, w)) /\
  (8 <= len password <= 100 ->
   hashPassword bhash password w =
   try_catch (bhash password 10) (fun _ => throw hash_failure) w) /\
  (isValid (validatePasswordStrength password) = true -> len password <= 100 ->
   hashPassword bhash password w =
   try_catch (bhash password 10) (fun _ => throw hash_failure) w).
Proof.
  assert (Hin : 8 <= len password <= 100 ->
                hashPassword bhash password w =
                try_catch (bhash password 10) (fun _ => throw hash_failure) w).
  { intros H. unfold hashPassword, try_catch, bind, ret, SALT_ROUNDS.
    destruct password as [|x p]; [unfold len in H; cbn in H; lia |].
    cbn [falsy]. rewrite Z.gtb_ltb.
    destruct (Z.ltb_spec (len (String x p)) 8); [lia |].
    destruct (Z.ltb_spec 100 (len (String x p))); [lia |].
    destruct (bhash (String x p) 10 w) as [[h | e] w']; reflexivity. }
  split; [| split; [exact Hin |]].
  - intros H. unfold hashPassword, try_catch, throw.
    destruct password as [|x p]; [reflexivity |].
    cbn [falsy]. rewrite Z.gtb_ltb.
    destruct (Z.ltb_spec (len (String x p)) 8); [reflexivity |].
    destruct (Z.ltb_spec 100 (len (String x p))); [reflexivity | lia].
  - intros Hv Hl. apply Hin. split; [| exact Hl].
    pose proof (validatePasswordStrength_raw password) as (Hr & _).
    rewrite Hv in Hr. symmetry in Hr. apply andb_prop in Hr as (_ & Hr). lia.
Qed.

End LoginFacts.

Lemma authorize_locked_is_null_witness :
  let w :=
    set_authAttempts {[ "ada@example.com" := mkAttempt 5 1000 ]}
      (initial_world [2000] no_fault) in
  authorize sample_parse sample_compare ("ada@example.com", "Correct-Horse-9") w =
  (Ok None, tick w).
Proof.
  intros w.
  apply (authorize_locked_is_null sample_parse sample_compare
           ("ada@example.com", "Correct-Horse-9") w "ada@example.com" "Correct-Horse-9"
           (mkAttempt 5 1000)).
  - reflexivity.
  - reflexivity.
  - vm_compute. discriminate.
  - vm_compute. discriminate.
Defined.

Lemma authorize_grants_on_match_witness :
  let w :=
    set_users {[ "ada@example.com" := ada_stored ]} (initial_world [1000; 2000] no_fault) in
  let r := authorize sample_parse sample_compare ("Ada@Example.com", "Correct-Horse-9") w in
  r.1 = Ok (Some (mkAuthorizedUser "ada@example.com" "ada@example.com" "Ada Lovelace"
                    "stu-12345")) /\
  authAttempts r.2 !! "Ada@Example.com" = None.
Proof.
  intros w r.
  assert (E : r.1 = Ok (Some (mkAuthorizedUser "ada@example.com" "ada@example.com"
                                "Ada Lovelace" "stu-12345"))) by reflexivity.
  split; [exact E |].
  destruct (proj2 (authorize_grants_on_match sample_parse sample_compare
                     ("Ada@Example.com", "Correct-Horse-9") w) _ E)
    as (email & password & stored & w1 & Hp & _ & _ & _ & Hc).
  injection Hp as <- <-. exact Hc.
Defined.

Lemma hashPassword_gate_witness :
  let w := initial_world [1000] no_fault in
  hashPassword sample_hash "Correct-Horse-9" w = (Ok "$2b$10$Correct-Horse-9", w).
Proof.
  intros w.
  rewrite (proj2 (proj2 (hashPassword_gate sample_hash "Correct-Horse-9" w)));
    first [reflexivity | vm_compute; discriminate].
Defined.

Lemma validatePasswordStrength_feedback_witness :
  feedback (validatePasswordStrength "Correct-Horse-9") = ["Strong password!"] /\
  isValid (validatePasswordStrength "Correct-Horse-9") = true.
Proof.
  destruct (validatePasswordStrength_feedback "Correct-Horse-9") as (_ & _ & _ & H).
  destruct H as (H1 & H2 & _); [left; reflexivity |].
  split; assumption.
Defined.

(** ** POST and the limiter, the other way round *)

(** X23.  POST answers 429 only to a caller over the limit.  When the answer
    is 429, the request passed the method and content type checks and
    carried an identity, the counter kept under the key of this email and
    client address had reached the maximum, its window was still open, and
    nothing but the clock reading happened: no body was read and no request
    was sent to the store. *)
Theorem POST_429_only_over_limit (w : World) (request : NextRequest)
    (resp : Response) :
  (EnrollmentsRoute.POST request w).1 = Ok resp ->
  http_status resp = 429 ->
  validateMethod request ["POST"] = true /\
  validateContentType request "application/json" = true /\
  (exists user a,
     session request = Some (mkSession (Some user)) /\
     attempts (apiRateLimiter w) !! enrollment_limit_key user request = Some a /\
     clock w (ticks w) <= resetTime a /\
     maxAttempts (apiRateLimiter w) <= w_count a) /\
  (EnrollmentsRoute.POST request w).2 = tick w.
Proof.
  unfold EnrollmentsRoute.POST, try_catch, bind, lift.
  destruct (validateMethod request ["POST"]); cbn [negb];
    [| intros [= <-]; cbn; discriminate].
  destruct (validateContentType request "application/json"); cbn [negb];
    [| intros [= <-]; cbn; discriminate].
  destruct (no_identity request) eqn:N.
  { rewrite (requireAuthentication_none _ _ N). intros [= <-]; cbn; discriminate. }
  destruct (requireAuthentication_some request w N) as (user & Hs & He & ->).
  fold (enrollment_limit_key user request).
  destruct (EnrollmentsRoute.apiRateLimiter_isAllowed
              (enrollment_limit_key user request) w) as [[[|] | e] w1] eqn:E;
    cbn [negb].
  - clear E.
    destruct (parseRequestBody request 512) as [body|e] eqn:P.
    2:{ rewrite (parse_error_not_auth _ _ _ P). intros [= <-]; cbn; discriminate. }
    destruct (enrollmentSchema body) as [[cid [|]]|];
      [| intros [= <-]; cbn; discriminate | intros [= <-]; cbn; discriminate].
    rewrite isUserEnrolledInClass_eq.
    destruct (existsb _ _); [intros [= <-]; cbn; discriminate |].
    destruct (EnrollmentsRoute.classNames cid) as [cn|];
      [| intros [= <-]; cbn; discriminate].
    rewrite enrollInClass_eq. cbv zeta.
    destruct (fault _ _) as [nm|].
    { destruct (String.eqb nm "ConditionalCheckFailedException");
        intros [= <-]; cbn; discriminate. }
    destruct (existsb _ _); [intros [= <-]; cbn; discriminate |].
    rewrite getUserEnrollments_eq. intros [= <-]; cbn; discriminate.
  - intros _ _. rewrite isAllowed_eq in E. cbv zeta in E.
    destruct (attempts (apiRateLimiter w) !! enrollment_limit_key user request)
      as [a|] eqn:Ha; [| discriminate E].
    destruct (Z.ltb_spec (resetTime a) (clock w (ticks w))); [discriminate E |].
    destruct (Z.leb_spec (maxAttempts (apiRateLimiter w)) (w_count a));
      [| discriminate E].
    injection E as <-. cbn. repeat split. exists user, a. auto.
  - destruct (isAllowed_outcome (enrollment_limit_key user request) w)
      as (b & w2 & E' & _). rewrite E' in E. discriminate E.
Qed.

Lemma POST_429_only_over_limit_witness :
  let w :=
    set_apiRateLimiter
      (mkRateLimiter 100 60000
         {[ enrollment_limit_key student (enroll_request "1") := mkWindow 100 5000 ]})
      (initial_world [1000] no_fault) in
  (EnrollmentsRoute.POST (enroll_request "1") w).2 = tick w.
Proof.
  intros w.
  destruct (POST_429_only_over_limit w (enroll_request "1")
              (mkResponse 429
                 (ApiResponse false None None
                    (Some (Text "Too many enrollment attempts. Please try again later.")))))
    as (_ & _ & _ & H).
  - reflexivity.
  - reflexivity.
  - exact H.
Defined.
